(** * JPNViet-Translator: language detection, translation routing and the
      speech pipeline of [app.py]

    A shallow embedding of the helper functions of [app.py]
    ([detect_lang_simple], [translate_text], [transcribe_bytes], [speak])
    and of the conversation-mode handler, followed by the properties the
    specification states about them.

    Python strings are sequences of Unicode code points, and that is how
    they are modelled here: the detector compares characters by code point
    and tests [ord(c) < 128].  The remote services, the statistical
    language identifier, the audio converter and the operating system are
    collaborators the program does not control; they are collected in a
    record of oracles ([World]) that every theorem quantifies over.  All
    calls to them are logged in a trace so that statements such as "no
    remote call is issued" can be made. *)

From Stdlib Require Import NArith List Lia String Ascii.
From Stdlib Require QArith_base.
From Stdlib Require Import DecimalString.
From stdpp Require Import gmap list.
Import ListNotations.

Local Open Scope N_scope.

(** ** Strings *)

(** A character is its code point ([ord(ch)]); a [str] is a list of them. *)
Definition char : Type := N.
Definition str : Type := list N.
Definition bytes : Type := list Byte.byte.

Module Utf8.

(** Literals of the source file are written as Rocq strings, which are
    byte strings; [lit] decodes the UTF-8 bytes into code points.  Only
    well-formed literals are given to it. *)
Definition cont (b : N) : N := N.land b 0x3F.

Fixpoint decode (bs : list N) : str :=
  match bs with
  | [] => []
  | b0 :: r0 =>
    if b0 <? 0x80 then b0 :: decode r0
    else match r0 with
         | [] => []
         | b1 :: r1 =>
           if b0 <? 0xE0
           then (N.shiftl (N.land b0 0x1F) 6 + cont b1) :: decode r1
           else match r1 with
                | [] => []
                | b2 :: r2 =>
                  if b0 <? 0xF0
                  then (N.shiftl (N.land b0 0x0F) 12
                        + N.shiftl (cont b1) 6 + cont b2) :: decode r2
                  else match r2 with
                       | [] => []
                       | b3 :: r3 =>
                         (N.shiftl (N.land b0 0x07) 18
                          + N.shiftl (cont b1) 12
                          + N.shiftl (cont b2) 6 + cont b3) :: decode r3
                       end
                end
         end
  end.

Definition lit (s : string) : str :=
  decode (map (fun b => N_of_ascii b) (list_ascii_of_string s)).

End Utf8.

Abbreviation lit := Utf8.lit.
Arguments Utf8.lit : simpl never.

(** [ch == "\n"]. *)
Definition newline : char := 10.

(** [str.isspace] for one character, as CPython's [_PyUnicode_IsWhitespace]
    lists it; [str.strip()] with no argument removes these from both ends. *)
Definition is_space (ch : char) : bool :=
  ((0x09 <=? ch) && (ch <=? 0x0D)) || ((0x1C <=? ch) && (ch <=? 0x20))
  || (ch =? 0x85) || (ch =? 0xA0) || (ch =? 0x1680)
  || ((0x2000 <=? ch) && (ch <=? 0x200A))
  || (ch =? 0x2028) || (ch =? 0x2029) || (ch =? 0x202F)
  || (ch =? 0x205F) || (ch =? 0x3000).

Fixpoint lstrip (s : str) : str :=
  match s with
  | [] => []
  | ch :: s' => if is_space ch then lstrip s' else s
  end.

Definition rstrip (s : str) : str := rev (lstrip (rev s)).

Definition strip (s : str) : str := rstrip (lstrip s).

(** Truthiness of a string or of a byte string: non-empty. *)
Definition truthy {A} (l : list A) : bool :=
  match l with [] => false | _ => true end.

(** [x in (a, b, ...)] on strings. *)
Definition str_in (x : str) (l : list str) : bool := bool_decide (x ∈ l).

(** ** The detector's character tests (app.py, lines 38 and 46) *)

(** ["぀" <= ch <= "ヿ" or "一" <= ch <= "鿿"]: one-character
    strings compare by code point. *)
Definition is_kana_or_cjk (ch : char) : bool :=
  ((0x3040 <=? ch) && (ch <=? 0x30FF)) || ((0x4E00 <=? ch) && (ch <=? 0x9FFF)).

(** [ord(c) < 128]. *)
Definition is_ascii (c : char) : bool := c <? 128.

(** *** The scripts as the specification names them

    The specification speaks of "the Unicode ranges for Japanese kana or
    CJK ideographs".  These are the blocks of the Unicode Standard that
    hold kana and CJK ideographs; the detector tests the first two kana
    blocks and the first ideograph block only. *)

Definition kana_blocks : list (N * N) :=
  [(0x3040, 0x309F);     (* Hiragana *)
   (0x30A0, 0x30FF);     (* Katakana *)
   (0x31F0, 0x31FF);     (* Katakana Phonetic Extensions *)
   (0xFF66, 0xFF9F);     (* Halfwidth Katakana *)
   (0x1AFF0, 0x1AFFF);   (* Kana Extended-B *)
   (0x1B000, 0x1B0FF);   (* Kana Supplement *)
   (0x1B100, 0x1B12F);   (* Kana Extended-A *)
   (0x1B130, 0x1B16F)].  (* Small Kana Extension *)

Definition cjk_ideograph_blocks : list (N * N) :=
  [(0x4E00, 0x9FFF);     (* CJK Unified Ideographs *)
   (0x3400, 0x4DBF);     (* Extension A *)
   (0xF900, 0xFAFF);     (* CJK Compatibility Ideographs *)
   (0x20000, 0x2A6DF);   (* Extension B *)
   (0x2A700, 0x2B73F);   (* Extension C *)
   (0x2B740, 0x2B81F);   (* Extension D *)
   (0x2B820, 0x2CEAF);   (* Extension E *)
   (0x2CEB0, 0x2EBEF);   (* Extension F *)
   (0x2F800, 0x2FA1F);   (* CJK Compatibility Ideographs Supplement *)
   (0x30000, 0x3134F);   (* Extension G *)
   (0x31350, 0x323AF)].  (* Extension H *)

Definition in_blocks (blocks : list (N * N)) (ch : char) : bool :=
  existsb (fun block => (fst block <=? ch) && (ch <=? snd block)) blocks.

Definition unicode_kana_or_cjk_ideograph (ch : char) : bool :=
  in_blocks kana_blocks ch || in_blocks cjk_ideograph_blocks ch.

(** ** Exceptions and outcomes *)

(** The exceptions modelled are those deriving from [Exception], which is
    what [except Exception] catches (interrupts and interpreter exits are
    outside the model); the only class the code tells apart is [OSError],
    in the cleanup of [transcribe_bytes].  [str(e)] is the message. *)
Inductive exn_class : Type :=
| OSError
| IndexError
| OtherError (name : string).

Record exn : Type := Exn { exn_cls : exn_class; exn_msg : str }.

Definition is_OSError (e : exn) : bool :=
  match exn_cls e with OSError => true | _ => false end.

Inductive outcome (A : Type) : Type :=
| Ok (a : A)
| Raise (e : exn).
Arguments Ok {A} a.
Arguments Raise {A} e.

(** ** Requests and responses of the collaborators *)

Definition STT_MODEL : str := lit "gpt-4o-mini-transcribe".
Definition TTS_MODEL : str := lit "gpt-4o-mini-tts".
Definition LLM_MODEL : str := lit "gpt-4o-mini".

(** One entry of [messages]: [{"role": ..., "content": ...}]. *)
Record message : Type := Message { role : str; content : str }.

Record chat_request : Type := ChatRequest {
  chat_model : str;
  chat_messages : list message;
  chat_temperature : QArith_base.Q
}.

(** [resp.choices[i].message.content] is a string or [None]. *)
Record choice : Type := Choice { message_content : option str }.
Record chat_response : Type := ChatResponse { choices : list choice }.

(** The keyword arguments of [client.audio.transcriptions.create]:
    ["language"] is present only when the hint is ["vi"] or ["ja"]. *)
Record stt_request : Type := SttRequest {
  stt_model : str;
  stt_file : bytes;
  stt_language : option str
}.

Record stt_response : Type := SttResponse { stt_text : str }.

Record tts_request : Type := TtsRequest {
  tts_model : str;
  tts_voice : str;
  tts_input : str
}.

(** ** Events and the world *)

Inductive event : Type :=
| EvDetect (text : str) (out : outcome str)
| EvChat (req : chat_request) (out : outcome chat_response)
| EvTranscribe (req : stt_request) (out : outcome stt_response)
| EvSpeech (req : tts_request) (out : outcome bytes)
| EvConvert (raw : bytes) (out : outcome bytes)
| EvTmpWrite (path : str) (data : bytes)
| EvRemove (path : str) (out : outcome unit)
| EvPlay (data : bytes) (mime : str).

(** The calls that go over the network. *)
Definition is_remote (ev : event) : bool :=
  match ev with
  | EvChat _ _ | EvTranscribe _ _ | EvSpeech _ _ => true
  | _ => false
  end.

(** What can go wrong on lines 84-86, before the [try]: the temporary
    file cannot be created, or it is created and writing to it (or closing
    it) fails, with [written] left on disk under its name. *)
Inductive tmp_fault : Type :=
| CreateFails (msg : str)
| WriteFails (msg : str) (written : bytes).

(** What the program cannot decide.  Each oracle sees the events so far,
    so the same request may be answered differently at different times
    (the identifier is randomised, the services are remote). *)
Record World : Type := {
  (** [langdetect.detect] *)
  w_detect : list event -> str -> outcome str;
  (** [client.chat.completions.create] *)
  w_chat : list event -> chat_request -> outcome chat_response;
  (** [client.audio.transcriptions.create] *)
  w_transcribe : list event -> stt_request -> outcome stt_response;
  (** [client.audio.speech.create(...)] followed by [resp.read()] *)
  w_speech : list event -> tts_request -> outcome bytes;
  (** [AudioSegment.from_file(..., format="mp3")] and
      [seg.export(buf, format="wav")] *)
  w_mp3_to_wav : list event -> bytes -> outcome bytes;
  (** the name [tempfile.NamedTemporaryFile] picks *)
  w_tmp_name : list event -> str;
  (** an [OSError] while the temporary file is created or written *)
  w_tmp_fault : list event -> bytes -> option tmp_fault;
  (** an [OSError] message when the system refuses an [os.remove] *)
  w_remove_denied : list event -> str -> option str
}.

(** ** Program state and the monad of the embedding *)

(** One entry of [st.session_state.chat]. *)
Record turn : Type := Turn {
  speaker : str;
  transcript : str;
  translation : str;
  turn_src : str;
  turn_dst : str
}.

(** The events so far, the files on disk, and the ["chat"] entry of
    [st.session_state] ([None] while the key is absent). *)
Record state : Type := State {
  trace : list event;
  fs : gmap str bytes;
  session_chat : option (list turn)
}.

Definition log (ev : event) (s : state) : state :=
  State (trace s ++ [ev]) (fs s) (session_chat s).

Definition set_fs (f : gmap str bytes) (s : state) : state :=
  State (trace s) f (session_chat s).

Definition set_chat (c : option (list turn)) (s : state) : state :=
  State (trace s) (fs s) c.

(** A computation returns or raises, and in both cases leaves a state:
    effects made before an exception stay. *)
Definition M (A : Type) : Type := state -> outcome A * state.

Definition ret {A} (a : A) : M A := fun s => (Ok a, s).

Definition raise {A} (e : exn) : M A := fun s => (Raise e, s).

Definition bind {A B} (m : M A) (k : A -> M B) : M B :=
  fun s =>
    match m s with
    | (Ok a, s') => k a s'
    | (Raise e, s') => (Raise e, s')
    end.

Declare Scope py_scope.
Delimit Scope py_scope with py.
Notation "x <- m ;; k" := (bind m (fun x => k))
  (at level 100, m at next level, right associativity) : py_scope.
Notation "m ;;; k" := (bind m (fun _ => k))
  (at level 100, right associativity) : py_scope.
Local Open Scope py_scope.

(** [try: body  except Exception as e: handler e]. *)
Definition try_except {A} (body : M A) (handler : exn -> M A) : M A :=
  fun s =>
    match body s with
    | (Ok a, s') => (Ok a, s')
    | (Raise e, s') => handler e s'
    end.

(** [try: body  except C: pass] for a statement, [C] given by its test. *)
Definition suppress (cls : exn -> bool) (body : M unit) : M unit :=
  fun s =>
    match body s with
    | (Ok _, s') => (Ok tt, s')
    | (Raise e, s') => if cls e then (Ok tt, s') else (Raise e, s')
    end.

(** [try: body  finally: cleanup]: the cleanup runs on both exits; an
    exception of the cleanup replaces the outcome of the body. *)
Definition try_finally {A} (body : M A) (cleanup : M unit) : M A :=
  fun s =>
    match body s with
    | (r, s') =>
      match cleanup s' with
      | (Ok _, s'') => (r, s'')
      | (Raise e, s'') => (Raise e, s'')
      end
    end.

(** The events a run adds to the trace it started from. *)
Definition events_of {A} (m : M A) (s : state) : list event :=
  drop (length (trace s)) (trace (snd (m s))).

(** ** The program *)

Section App.

Variable W : World.

(** A call to a collaborator: ask the oracle, log the call with what it
    gave, and return or raise accordingly. *)
Definition call {R} (oracle : list event -> outcome R)
           (ev : outcome R -> event) : M R :=
  fun s => let out := oracle (trace s) in (out, log (ev out) s).

Definition detect (text : str) : M str :=
  call (fun h => w_detect W h text) (EvDetect text).

Definition chat_completions_create (req : chat_request) : M chat_response :=
  call (fun h => w_chat W h req) (EvChat req).

Definition audio_transcriptions_create (req : stt_request) : M stt_response :=
  call (fun h => w_transcribe W h req) (EvTranscribe req).

Definition audio_speech_create (req : tts_request) : M bytes :=
  call (fun h => w_speech W h req) (EvSpeech req).

Definition mp3_to_wav (raw : bytes) : M bytes :=
  call (fun h => w_mp3_to_wav W h raw) (EvConvert raw).

(** *** [detect_lang_simple] (lines 36-46)

    The [return lang] inside the [try] is the [Some] of the block's
    value; falling out of the [try], or into [except Exception: pass],
    is [None] and leads to the last line. *)
Definition detect_lang_simple (text : str) : M str :=
  if existsb is_kana_or_cjk text then ret (lit "ja")
  else
    found <- try_except
               (lang <- detect text ;;
                if str_in lang [lit "ja"; lit "vi"] then ret (Some lang)
                else ret None)
               (fun _ => ret None) ;;
    match found with
    | Some lang => ret lang
    | None => ret (if forallb is_ascii text then lit "vi" else lit "ja")
    end.

(** *** [translate_text] (lines 49-80) *)

(** Lines 50-55: what [src] is after the first [if]. *)
Definition resolve_src (text src : str) : M str :=
  if bool_decide (src = lit "auto") then
    detected <- detect_lang_simple text ;;
    if str_in detected [lit "vi"; lit "ja"] then ret detected
    else ret (lit "vi")
  else ret src.

Definition system_prompt : str :=
  lit "あなたはプロの翻訳者です。文章を簡潔かつ自然に翻訳してください。"
  ++ lit "- ソース言語: 'vi'=ベトナム語, 'ja'=日本語"
  ++ lit "- ターゲット言語: 'ja'=日本語, 'vi'=ベトナム語"
  ++ lit "- 数字や名前はそのまま保持"
  ++ lit "- 説明は追加せず翻訳文のみ出力".

(** [f"[SRC={src}] [DST={dst}]\n{text}"]. *)
Definition user_content (text src dst : str) : str :=
  lit "[SRC=" ++ src ++ lit "] [DST=" ++ dst ++ lit "]" ++ [newline] ++ text.

Definition translation_request (text src dst : str) : chat_request :=
  ChatRequest LLM_MODEL
    [Message (lit "system") system_prompt;
     Message (lit "user") (user_content text src dst)]
    (QArith_base.Qmake 2 10).

(** [l[0]]. *)
Definition first {A} (l : list A) : M A :=
  match l with
  | x :: _ => ret x
  | [] => raise (Exn IndexError (lit "list index out of range"))
  end.

(** Line 78. *)
Definition translated_content (resp : chat_response) : M str :=
  c <- first (choices resp) ;;
  match message_content c with
  | Some txt => if truthy txt then ret (strip txt)
                else ret (lit "Translation failed")
  | None => ret (lit "Translation failed")
  end.

Definition translate_text (text src dst : str) : M str :=
  src <- resolve_src text src ;;
  if bool_decide (src = dst) then ret text
  else
    try_except
      (resp <- chat_completions_create (translation_request text src dst) ;;
       translated_content resp)
      (fun e => ret (lit "Translation error: " ++ exn_msg e)).

(** *** [transcribe_bytes] (lines 83-98) *)

(** Lines 84-86: the file is created under the name the system picks,
    [wav_bytes] is written to it, and it stays on disk when the [with]
    block ends ([delete=False]).  These lines are before the [try]: when
    the file cannot be created the function raises with no file made;
    when writing or closing fails it raises with the file left on disk. *)
Definition named_temporary_file (data : bytes) : M str :=
  fun s =>
    let path := w_tmp_name W (trace s) in
    match w_tmp_fault W (trace s) data with
    | Some (CreateFails msg) => (Raise (Exn OSError msg), s)
    | Some (WriteFails msg written) =>
      (Raise (Exn OSError msg), set_fs (<[path := written]> (fs s)) s)
    | None =>
      (Ok path, log (EvTmpWrite path data) (set_fs (<[path := data]> (fs s)) s))
    end.

(** [FileNotFoundError], an [OSError]. *)
Definition no_such_file (path : str) : exn :=
  Exn OSError (lit "[Errno 2] No such file or directory: '" ++ path ++ lit "'").

(** [open(path, "rb")] and what the reader gets from it. *)
Definition open_rb (path : str) : M bytes :=
  fun s =>
    match fs s !! path with
    | Some data => (Ok data, s)
    | None => (Raise (no_such_file path), s)
    end.

(** [os.remove(path)]: an [OSError] when the file is not there or the
    system refuses; otherwise the file is gone. *)
Definition os_remove (path : str) : M unit :=
  fun s =>
    match fs s !! path with
    | None =>
      let out := Raise (no_such_file path) in
      (out, log (EvRemove path out) s)
    | Some _ =>
      match w_remove_denied W (trace s) path with
      | Some msg =>
        let out := Raise (Exn OSError msg) in
        (out, log (EvRemove path out) s)
      | None =>
        (Ok tt, log (EvRemove path (Ok tt)) (set_fs (delete path (fs s)) s))
      end
    end.

Definition transcribe_bytes (wav_bytes : bytes) (lang_hint : str) : M str :=
  tmp_path <- named_temporary_file wav_bytes ;;
  try_finally
    (f <- open_rb tmp_path ;;
     let language :=
       if str_in lang_hint [lit "vi"; lit "ja"] then Some lang_hint else None in
     stt <- audio_transcriptions_create (SttRequest STT_MODEL f language) ;;
     ret (strip (stt_text stt)))
    (suppress is_OSError (os_remove tmp_path)).

(** *** [speak] (lines 101-125) *)
Definition speak (text voice fmt : str) : M (bytes * str) :=
  if negb (truthy (strip text)) then ret ([], lit "audio/mp3")
  else
    raw <- audio_speech_create (TtsRequest TTS_MODEL voice text) ;;
    if bool_decide (fmt = lit "mp3") then ret (raw, lit "audio/mp3")
    else
      try_except
        (wav <- mp3_to_wav raw ;; ret (wav, lit "audio/wav"))
        (fun _ => ret (raw, lit "audio/mp3")).

(** *** Conversation mode (lines 191-209) *)

(** [if "chat" not in st.session_state: st.session_state.chat = []]. *)
Definition init_chat : M unit :=
  fun s =>
    match session_chat s with
    | None => (Ok tt, set_chat (Some []) s)
    | Some _ => (Ok tt, s)
    end.

(** [st.session_state.chat]; the key is there once [init_chat] has run. *)
Definition get_chat : M (list turn) :=
  fun s =>
    match session_chat s with
    | Some c => (Ok c, s)
    | None => (Raise (Exn (OtherError "AttributeError") (lit "chat")), s)
    end.

(** [st.session_state.chat.append(t)]. *)
Definition chat_append (t : turn) : M unit :=
  c <- get_chat ;;
  fun s => (Ok tt, set_chat (Some (c ++ [t])) s).

(** [st.audio(audio_bytes, format=mime)]: the player is logged with what
    it plays; on a page it is drawn where the call is made (see [lift]
    and [players] below). *)
Definition st_audio (data : bytes) (mime : str) : M unit :=
  fun s => (Ok tt, log (EvPlay data mime) s).

(** ["A" if (len(chat) % 2 == 0) else "B"]. *)
Definition speaker_label (n : nat) : str :=
  if Nat.eqb (n mod 2) 0 then lit "A" else lit "B".

(** Lines 195-209, for recorded audio [wav_bytes]. *)
Definition voice_turn (tts_voice audio_format : str) (wav_bytes : bytes) : M unit :=
  transcript <- transcribe_bytes wav_bytes (lit "auto") ;;
  detected <- detect_lang_simple transcript ;;
  let target := if bool_decide (detected = lit "vi") then lit "ja" else lit "vi" in
  translation <- translate_text transcript detected target ;;
  chat <- get_chat ;;
  chat_append (Turn (speaker_label (length chat)) transcript translation
                    detected target) ;;;
  res <- speak translation tts_voice audio_format ;;
  let '(audio_bytes, mime) := res in
  if truthy audio_bytes then st_audio audio_bytes mime else ret tt.

(** One run of the script in conversation mode: [wav_bytes] is what
    [audio_recorder] returned, [None] when nothing was recorded. *)
Definition conversation_mode (tts_voice audio_format : str)
           (wav_bytes : option bytes) : M unit :=
  init_chat ;;;
  match wav_bytes with
  | Some wav => if truthy wav then voice_turn tts_voice audio_format wav
                else ret tt
  | None => ret tt
  end.

End App.

(** ** Notions used in the statements *)

(** The identifier raises, or returns a code other than ["ja"] and
    ["vi"], on [text] after the events [h]. *)
Definition identifier_fails (W : World) (h : list event) (text : str) : Prop :=
  forall lang, w_detect W h text = Ok lang -> lang ∉ [lit "ja"; lit "vi"].

(** What line 78 and the handler of line 80 make of the service's answer. *)
Definition translation_result (out : outcome chat_response) : str :=
  match out with
  | Raise e => lit "Translation error: " ++ exn_msg e
  | Ok resp =>
    match choices resp with
    | [] => lit "Translation error: " ++ lit "list index out of range"
    | c :: _ =>
      match message_content c with
      | Some txt => if truthy txt then strip txt else lit "Translation failed"
      | None => lit "Translation failed"
      end
    end
  end.

(** The removal as the [finally] block runs it: whatever [os.remove]
    does, the block itself ends normally. *)
Definition removal_outcome (refusal : option str) : outcome unit :=
  match refusal with
  | None => Ok tt
  | Some msg => Raise (Exn OSError msg)
  end.

(** Streamlit runs the script once per interaction and keeps
    [st.session_state] between runs.  A session in conversation mode is a
    list of runs, each with the sidebar settings and the recorder's value
    of that run; what a run raises is shown on the page and the next run
    starts from the state it left. *)
Fixpoint run_session (W : World) (runs : list (str * str * option bytes))
         (s : state) : state :=
  match runs with
  | [] => s
  | (tts_voice, audio_format, wav_bytes) :: rest =>
    run_session W rest (snd (conversation_mode W tts_voice audio_format wav_bytes s))
  end.

(** The history: empty while the key is absent. *)
Definition chat_of (s : state) : list turn := default [] (session_chat s).

(** A computation that does not write [st.session_state.chat]. *)
Definition keeps_chat {A} (m : M A) : Prop :=
  forall s, session_chat (snd (m s)) = session_chat s.

(** A run records a turn when the recorder gave audio and its
    transcription returned. *)
Definition records_turn (W : World) (wav_bytes : option bytes) (s : state) : bool :=
  match wav_bytes with
  | Some wav =>
    truthy wav
    && match fst (transcribe_bytes W wav (lit "auto") s) with
       | Ok _ => true
       | Raise _ => false
       end
  | None => false
  end.

(** The turn at index [i] carries the label of [i]. *)
Definition alternating (c : list turn) : Prop :=
  forall i t, c !! i = Some t -> speaker t = speaker_label i.

(** ** Sample worlds and states, for concrete runs *)

Module Sample.

Definition connection_error : exn :=
  Exn (OtherError "APIConnectionError") (lit "Connection error.").

Definition no_features : exn :=
  Exn (OtherError "LangDetectException") (lit "No features in text.").

Definition decode_error : exn :=
  Exn (OtherError "CouldntDecodeError") (lit "Decoding failed.").

(** Nothing works: the identifier raises, the services are unreachable,
    the converter fails, and the system refuses to remove files. *)
Definition world_down : World := {|
  w_detect := fun _ _ => Raise no_features;
  w_chat := fun _ _ => Raise connection_error;
  w_transcribe := fun _ _ => Raise connection_error;
  w_speech := fun _ _ => Raise connection_error;
  w_mp3_to_wav := fun _ _ => Raise decode_error;
  w_tmp_name := fun _ => lit "/tmp/tmpk3v9x1.wav";
  w_tmp_fault := fun _ _ => None;
  w_remove_denied := fun _ _ => Some (lit "Permission denied")
|}.

(** The identifier says ["vi"]; the translation service answers with a
    padded text; the transcription service hears "xin chao"; speech
    synthesis returns three bytes; the converter fails. *)
Definition world_up : World := {|
  w_detect := fun _ _ => Ok (lit "vi");
  w_chat := fun _ _ =>
    Ok (ChatResponse [Choice (Some (lit " こんにちは "))]);
  w_transcribe := fun _ _ => Ok (SttResponse (lit "xin chao "));
  w_speech := fun _ _ => Ok [Byte.x49; Byte.x44; Byte.x33];
  w_mp3_to_wav := fun _ _ => Raise decode_error;
  w_tmp_name := fun _ => lit "/tmp/tmpk3v9x1.wav";
  w_tmp_fault := fun _ _ => None;
  w_remove_denied := fun _ _ => None
|}.

(** A fresh session: nothing logged, no files, no ["chat"] key. *)
Definition s0 : state := State [] ∅ None.

Definition konnichiwa : str := lit "こんにちは".
Definition xin_chao : str := lit "Xin chào".
Definition recording : bytes := [Byte.x52; Byte.x49; Byte.x46; Byte.x46].

End Sample.

(** ** Further notions *)

(** A stripped string: nothing to strip at either end. *)
Definition is_stripped (s : str) : Prop :=
  strip s = s
  /\ (forall ch rest, s = ch :: rest -> is_space ch = false)
  /\ (forall ch, last s = Some ch -> is_space ch = false).

(** A computation that only adds to the trace. *)
Definition grows {A} (m : M A) : Prop :=
  forall s, exists evs, trace (snd (m s)) = trace s ++ evs.

(** The three remote services, and the one an event is a call to. *)
Inductive service : Type :=
| Transcription
| Translation
| Synthesis.

Definition service_of (ev : event) : option service :=
  match ev with
  | EvTranscribe _ _ => Some Transcription
  | EvChat _ _ => Some Translation
  | EvSpeech _ _ => Some Synthesis
  | _ => None
  end.

(** The remote calls in a list of events, in order, by service. *)
Definition services (evs : list event) : list service := omap service_of evs.

(** A turn translated from one of the two languages to the other. *)
Definition crosses_languages (t : turn) : Prop :=
  (turn_src t = lit "vi" /\ turn_dst t = lit "ja")
  \/ (turn_src t = lit "ja" /\ turn_dst t = lit "vi").

(** ** The page: what the script shows (lines 17-19 and 150-216) *)

(** The output elements the script puts on the page, and the input
    widgets it draws, with the arguments the script gives them. *)
Inductive widget : Type :=
| StSubheader (body : str)
| StCaption (body : str)
| StWarning (body : str)
| StInfo (body : str)
| StSuccess (body : str)
| StMarkdown (body : str)
| StWrite (body : str)
| StSpinner (text : str)
| StTextArea (label value : str) (height : N)
| StButton (label kind : str)
| AudioRecorder (text recording_color neutral_color icon_size : str)
| StAudio (data : bytes) (mime : str)
| StDivider.

(** The program state together with what has been put on the page. *)
Record page : Type := Page {
  app : state;
  shown : list widget
}.

Definition UI (A : Type) : Type := page -> outcome A * page.

Definition ui_ret {A} (a : A) : UI A := fun p => (Ok a, p).

Definition ui_bind {A B} (m : UI A) (k : A -> UI B) : UI B :=
  fun p =>
    match m p with
    | (Ok a, p') => k a p'
    | (Raise e, p') => (Raise e, p')
    end.

Notation "x <~ m ;; k" := (ui_bind m (fun x => k))
  (at level 100, m at next level, right associativity) : py_scope.
Notation "m ;;~ k" := (ui_bind m (fun _ => k))
  (at level 100, right associativity) : py_scope.

(** The audio players that the calls of [st.audio] among [evs] draw, in
    the order of the calls. *)
Definition players (evs : list event) : list widget :=
  omap (fun ev => match ev with
                  | EvPlay data mime => Some (StAudio data mime)
                  | _ => None
                  end) evs.

(** A helper of the program, run from the script: the players it starts
    are drawn on the page, below what is already there. *)
Definition lift {A} (m : M A) : UI A :=
  fun p =>
    match m (app p) with
    | (r, s') =>
      (r, Page s' (shown p ++ players (drop (length (trace (app p))) (trace s'))))
    end.

(** [st.subheader(...)], [st.markdown(...)] and the like. *)
Definition show (w : widget) : UI unit :=
  fun p => (Ok tt, Page (app p) (shown p ++ [w])).

(** [for x in l: body x]. *)
Fixpoint for_each {A} (body : A -> UI unit) (l : list A) : UI unit :=
  match l with
  | [] => ui_ret tt
  | x :: rest => body x ;;~ for_each body rest
  end.

(** [enumerate(l)]. *)
Definition enumerate {A} (l : list A) : list (nat * A) := imap pair l.

(** [str(n)], as an f-string formats an integer. *)
Definition str_of_nat (n : nat) : str :=
  lit (NilZero.string_of_uint (Nat.to_uint n)).

(** The remote events a run of the script adds. *)
Definition ui_events_of {A} (m : UI A) (p : page) : list event :=
  drop (length (trace (app p))) (trace (app (snd (m p)))).

(** *** The credential check (lines 17-19) *)

Definition OPENAI_API_KEY : str := lit "OPENAI_API_KEY".

(** [os.environ[key]]. *)
Definition environ_getitem (environ : gmap str str) (key : str) : UI str :=
  fun p =>
    match environ !! key with
    | Some value => (Ok value, p)
    | None => (Raise (Exn (OtherError "KeyError") (lit "'" ++ key ++ lit "'")), p)
    end.

(** Line 18: [or] evaluates its right operand only when the left one is
    false. *)
Definition api_key_unset (environ : gmap str str) : UI bool :=
  if negb (bool_decide (is_Some (environ !! OPENAI_API_KEY))) then ui_ret true
  else
    value <~ environ_getitem environ OPENAI_API_KEY ;;
    ui_ret (negb (truthy (strip value))).

Definition check_api_key (environ : gmap str str) : UI unit :=
  unset <~ api_key_unset environ ;;
  if unset
  then show (StWarning (lit "OPENAI_API_KEY が設定されていません。 .env に追加してください。"))
  else ui_ret tt.

Section Pages.

Variable W : World.

(** *** Text mode (lines 151-165) *)

(** Line 152. *)
Definition example (dst_choice : str) : str :=
  if bool_decide (dst_choice = lit "ja")
  then lit "Xin chào, rất vui được gặp bạn."
  else lit "今日はとても暑いですね。".

(** Lines 158-165, once a non-blank text has been submitted. *)
Definition translate_and_speak (src_choice dst_choice tts_voice audio_format : str)
           (text_in : str) : UI unit :=
  show (StSpinner (lit "翻訳中... / Đang dịch...")) ;;~
  out <~ lift (translate_text W text_in src_choice dst_choice) ;;
  show (StSuccess (lit "完了 / Hoàn tất")) ;;~
  show (StMarkdown (lit "**翻訳結果 / Kết quả**")) ;;~
  show (StTextArea [] out 150) ;;~
  res <~ lift (speak W out tts_voice audio_format) ;;
  let '(audio_bytes, mime) := res in
  if truthy audio_bytes then lift (st_audio audio_bytes mime) else ui_ret tt.

(** [typed] is what the user left in the text area, [None] when the
    area still holds the example; [clicked] is what [st.button]
    returned. *)
Definition text_mode (src_choice dst_choice tts_voice audio_format : str)
           (typed : option str) (clicked : bool) : UI unit :=
  show (StSubheader (lit "📝 テキスト翻訳 / Dịch văn bản")) ;;~
  let text_in := default (example dst_choice) typed in
  show (StTextArea (lit "テキスト入力 / Nhập văn bản") text_in 150) ;;~
  show (StButton (lit "翻訳 / Dịch") (lit "primary")) ;;~
  if clicked then
    if negb (truthy (strip text_in))
    then show (StWarning (lit "テキストを入力してください / Vui lòng nhập văn bản"))
    else translate_and_speak src_choice dst_choice tts_voice audio_format text_in
  else ui_ret tt.

(** *** Voice input mode (lines 168-185) *)

(** Lines 173-185, for recorded audio. *)
Definition voice_input (src_choice dst_choice tts_voice audio_format : str)
           (wav_bytes : bytes) : UI unit :=
  show (StInfo (lit "録音完了 / Đã ghi âm. テキスト化中... / Đang nhận dạng...")) ;;~
  let lang_hint :=
    if negb (bool_decide (src_choice = lit "auto")) then src_choice
    else lit "auto" in
  transcript <~ lift (transcribe_bytes W wav_bytes lang_hint) ;;
  show (StMarkdown (lit "**文字起こし / Văn bản**")) ;;~
  show (StWrite transcript) ;;~
  show (StSpinner (lit "翻訳中... / Đang dịch...")) ;;~
  out <~ lift (translate_text W transcript src_choice dst_choice) ;;
  show (StMarkdown (lit "**翻訳 / Bản dịch**")) ;;~
  show (StWrite out) ;;~
  res <~ lift (speak W out tts_voice audio_format) ;;
  let '(audio_bytes, mime) := res in
  if truthy audio_bytes then lift (st_audio audio_bytes mime) else ui_ret tt.

Definition voice_input_mode (src_choice dst_choice tts_voice audio_format : str)
           (wav_bytes : option bytes) : UI unit :=
  show (StSubheader (lit "🎤 音声入力翻訳 / Dịch giọng nói")) ;;~
  show (StCaption (lit "クリックして録音 / Nhấn để ghi âm")) ;;~
  show (AudioRecorder (lit "録音 / Ghi âm") (lit "#e53935")
                      (lit "#6c757d") (lit "2x")) ;;~
  match wav_bytes with
  | Some wav =>
    if truthy wav
    then voice_input src_choice dst_choice tts_voice audio_format wav
    else ui_ret tt
  | None => ui_ret tt
  end.

(** *** The conversation page (lines 188-216) *)

(** Lines 212-216: the body of the loop, for the index [i] and the
    entry [msg], in a history of [total] turns. *)
Definition show_turn (total : nat) (entry : nat * turn) : UI unit :=
  let '(i, msg) := entry in
  let role := speaker msg in
  show (StMarkdown (lit "### " ++ str_of_nat (total - i)
                    ++ lit " 回目 / Lượt " ++ str_of_nat (total - i)
                    ++ lit " · 話者 / Người nói " ++ role)) ;;~
  show (StMarkdown (lit "**原文 (" ++ turn_src msg ++ lit ")**: "
                    ++ transcript msg)) ;;~
  show (StMarkdown (lit "**翻訳 (" ++ turn_dst msg ++ lit ")**: "
                    ++ translation msg)) ;;~
  show StDivider.

(** Lines 211-216. *)
Definition show_history : UI unit :=
  chat <~ lift get_chat ;;
  for_each (show_turn (length chat)) (enumerate (rev chat)).

(** The whole branch: the handler of lines 191-209 is
    [conversation_mode]; the recorder is drawn between its two halves,
    which shows in nothing. *)
Definition conversation_page (tts_voice audio_format : str)
           (wav_bytes : option bytes) : UI unit :=
  show (StSubheader (lit "🗣️ 会話モード / Hội thoại")) ;;~
  show (StCaption (lit "交互に話してください / Nói lần lượt")) ;;~
  show (AudioRecorder (lit "話す / Nói") (lit "#1e88e5")
                      (lit "#6c757d") (lit "2x")) ;;~
  lift (conversation_mode W tts_voice audio_format wav_bytes) ;;~
  show_history.

End Pages.

(** What the loop of lines 211-216 shows for one turn, given the number
    printed in its heading. *)
Definition turn_block (number : nat) (msg : turn) : list widget :=
  [StMarkdown (lit "### " ++ str_of_nat number
               ++ lit " 回目 / Lượt " ++ str_of_nat number
               ++ lit " · 話者 / Người nói " ++ speaker msg);
   StMarkdown (lit "**原文 (" ++ turn_src msg ++ lit ")**: " ++ transcript msg);
   StMarkdown (lit "**翻訳 (" ++ turn_dst msg ++ lit ")**: " ++ translation msg);
   StDivider].

(** What the playback of lines 163-165 (and 183-185) does with the
    result of [speak]. *)
Definition playback (r : outcome (bytes * str)) (s : state) : outcome unit * state :=
  match r with
  | Ok (audio_bytes, mime) =>
    (Ok tt, if truthy audio_bytes then log (EvPlay audio_bytes mime) s else s)
  | Raise e => (Raise e, s)
  end.

(** The player that lines 164-165 (and 184-185, 208-209) draw for the
    result of [speak]: none for empty audio, none when [speak] raised. *)
Definition player (r : outcome (bytes * str)) : list widget :=
  match r with
  | Ok (audio_bytes, mime) =>
    if truthy audio_bytes then [StAudio audio_bytes mime] else []
  | Raise _ => []
  end.


(** ** More worlds, for concrete runs *)

Module Scenario.

(** The translation service is down, everything else works; the
    converter succeeds. *)
Definition world_mute : World := {|
  w_detect := fun _ _ => Ok (lit "vi");
  w_chat := fun _ _ => Raise Sample.connection_error;
  w_transcribe := fun _ _ => Ok (SttResponse (lit " xin chao"));
  w_speech := fun _ _ => Ok [Byte.x49; Byte.x44; Byte.x33];
  w_mp3_to_wav := fun _ _ => Ok [Byte.x52; Byte.x49; Byte.x46; Byte.x46];
  w_tmp_name := fun _ => lit "/tmp/tmpq7w2e5.wav";
  w_tmp_fault := fun _ _ => None;
  w_remove_denied := fun _ _ => None
|}.

(** The translation service answers without content. *)
Definition world_silent : World := {|
  w_detect := fun _ _ => Ok (lit "vi");
  w_chat := fun _ _ => Ok (ChatResponse [Choice None]);
  w_transcribe := fun _ _ => Ok (SttResponse (lit " xin chao"));
  w_speech := fun _ _ => Ok [Byte.x49; Byte.x44; Byte.x33];
  w_mp3_to_wav := fun _ _ => Ok [Byte.x52; Byte.x49; Byte.x46; Byte.x46];
  w_tmp_name := fun _ => lit "/tmp/tmpq7w2e5.wav";
  w_tmp_fault := fun _ _ => None;
  w_remove_denied := fun _ _ => None
|}.

(** The translation service answers with the words of the failure
    string. *)
Definition world_parrot : World := {|
  w_detect := fun _ _ => Ok (lit "vi");
  w_chat := fun _ _ =>
    Ok (ChatResponse [Choice (Some (lit "Translation failed"))]);
  w_transcribe := fun _ _ => Ok (SttResponse (lit " xin chao"));
  w_speech := fun _ _ => Ok [Byte.x49; Byte.x44; Byte.x33];
  w_mp3_to_wav := fun _ _ => Ok [Byte.x52; Byte.x49; Byte.x46; Byte.x46];
  w_tmp_name := fun _ => lit "/tmp/tmpq7w2e5.wav";
  w_tmp_fault := fun _ _ => None;
  w_remove_denied := fun _ _ => None
|}.

(** Everything works except speech synthesis. *)
Definition world_hoarse : World := {|
  w_detect := fun _ _ => Ok (lit "vi");
  w_chat := fun _ _ =>
    Ok (ChatResponse [Choice (Some (lit "こんにちは"))]);
  w_transcribe := fun _ _ => Ok (SttResponse (lit " xin chao"));
  w_speech := fun _ _ => Raise Sample.connection_error;
  w_mp3_to_wav := fun _ _ => Ok [Byte.x52; Byte.x49; Byte.x46; Byte.x46];
  w_tmp_name := fun _ => lit "/tmp/tmpq7w2e5.wav";
  w_tmp_fault := fun _ _ => None;
  w_remove_denied := fun _ _ => None
|}.

(** The disk is full: the temporary file is created, and writing to it
    fails with nothing written. *)
Definition world_full_disk : World := {|
  w_detect := fun _ _ => Ok (lit "vi");
  w_chat := fun _ _ =>
    Ok (ChatResponse [Choice (Some (lit "こんにちは"))]);
  w_transcribe := fun _ _ => Ok (SttResponse (lit " xin chao"));
  w_speech := fun _ _ => Ok [Byte.x49; Byte.x44; Byte.x33];
  w_mp3_to_wav := fun _ _ => Ok [Byte.x52; Byte.x49; Byte.x46; Byte.x46];
  w_tmp_name := fun _ => lit "/tmp/tmpq7w2e5.wav";
  w_tmp_fault := fun _ _ =>
    Some (WriteFails (lit "[Errno 28] No space left on device") []);
  w_remove_denied := fun _ _ => None
|}.

End Scenario.

(** ** Properties *)

(** *** Literals and stripping *)

Example lit_konnichiwa :
  lit "こんにちは" = [0x3053; 0x3093; 0x306B; 0x3061; 0x306F].
Proof. reflexivity. Qed.

Example lit_xin_chao :
  lit "Xin chào" = [88; 105; 110; 32; 99; 104; 0xE0; 111].
Proof. reflexivity. Qed.

(** The four characters that bound the ranges on line 38. *)
Example lit_range_ends :
  lit "぀" = [0x3040] /\ lit "ヿ" = [0x30FF]
  /\ lit "一" = [0x4E00] /\ lit "鿿" = [0x9FFF].
Proof. repeat split. Qed.

Example strip_example : strip (lit "  xin chao ") = lit "xin chao".
Proof. reflexivity. Qed.

(** *** Traces *)

Lemma events_of_app {A} (m : M A) (s : state) (evs : list event) :
  trace (snd (m s)) = trace s ++ evs -> events_of m s = evs.
Proof.
  intros H. unfold events_of. rewrite H. apply drop_app_length.
Qed.

Lemma events_of_same {A} (m : M A) (s : state) (r : outcome A) :
  m s = (r, s) -> events_of m s = [].
Proof.
  intros H. apply events_of_app. rewrite H. simpl. by rewrite app_nil_r.
Qed.

Lemma trace_log ev s : trace (log ev s) = trace s ++ [ev].
Proof. reflexivity. Qed.

(** *** The detector *)

Lemma str_in_true x l : x ∈ l -> str_in x l = true.
Proof. intros H. unfold str_in. by apply bool_decide_eq_true. Qed.

Lemma str_in_false x l : x ∉ l -> str_in x l = false.
Proof. intros H. unfold str_in. by apply bool_decide_eq_false. Qed.

(** The script-range test decides the result before anything else is
    looked at. *)
Lemma detect_fast_path W text s :
  existsb is_kana_or_cjk text = true ->
  detect_lang_simple W text s = (Ok (lit "ja"), s).
Proof. intros H. unfold detect_lang_simple. by rewrite H. Qed.

(** Without a kana/CJK character the identifier is asked once, and the
    result follows from its answer. *)
Lemma detect_slow_path W text s :
  existsb is_kana_or_cjk text = false ->
  detect_lang_simple W text s =
  (Ok match w_detect W (trace s) text with
      | Ok lang =>
        if str_in lang [lit "ja"; lit "vi"] then lang
        else if forallb is_ascii text then lit "vi" else lit "ja"
      | Raise _ => if forallb is_ascii text then lit "vi" else lit "ja"
      end,
   log (EvDetect text (w_detect W (trace s) text)) s).
Proof.
  intros H. unfold detect_lang_simple. rewrite H.
  unfold bind, try_except, detect, call, ret.
  destruct (w_detect W (trace s) text) as [lang|e]; [|done].
  by destruct (str_in lang _).
Qed.

(** The detector returns on every input, in every world. *)
Lemma detect_returns W text s :
  exists lang, fst (detect_lang_simple W text s) = Ok lang.
Proof.
  destruct (existsb is_kana_or_cjk text) eqn:E.
  - rewrite detect_fast_path; eauto.
  - rewrite detect_slow_path; eauto.
Qed.

(** The ranges the detector tests are among those the specification
    names: the Hiragana and Katakana blocks and the CJK Unified Ideographs
    block. *)
Lemma is_kana_or_cjk_unicode (ch : char) :
  is_kana_or_cjk ch = true -> unicode_kana_or_cjk_ideograph ch = true.
Proof.
  unfold is_kana_or_cjk, unicode_kana_or_cjk_ideograph, in_blocks,
    kana_blocks, cjk_ideograph_blocks.
  cbn [existsb fst snd].
  rewrite !orb_true_iff, !andb_true_iff, !N.leb_le. lia.
Qed.

(** C1 as the specification words it ranges over the Unicode ranges for
    kana and CJK ideographs; the detector tests U+3040..U+30FF and
    U+4E00..U+9FFF only.  An ideograph of Extension A (U+3400) does not
    take the fast path: the identifier is consulted, in every world, and
    where it answers ["vi"] that is what the detector returns. *)
Lemma C1_counterexample_ideograph_outside_the_tested_ranges :
  let text := lit "Xin chào 㐀" in
  (exists ch, ch ∈ text /\ unicode_kana_or_cjk_ideograph ch = true)
  /\ existsb is_kana_or_cjk text = false
  /\ (forall (W : World) (s : state),
         events_of (detect_lang_simple W text) s
         = [EvDetect text (w_detect W (trace s) text)])
  /\ detect_lang_simple Sample.world_up text Sample.s0
     = (Ok (lit "vi"), log (EvDetect text (Ok (lit "vi"))) Sample.s0)
  /\ ~ (forall (W : World) (text : str) (s : state),
          (exists ch, ch ∈ text /\ unicode_kana_or_cjk_ideograph ch = true) ->
          detect_lang_simple W text s = (Ok (lit "ja"), s)
          /\ events_of (detect_lang_simple W text) s = []).
Proof.
  intros text.
  assert (exists ch, ch ∈ text /\ unicode_kana_or_cjk_ideograph ch = true)
    as Hin.
  { exists 0x3400. split; [|reflexivity].
    apply list_elem_of_In. vm_compute. tauto. }
  assert (existsb is_kana_or_cjk text = false) as Hslow
      by (vm_compute; reflexivity).
  assert (detect_lang_simple Sample.world_up text Sample.s0
          = (Ok (lit "vi"), log (EvDetect text (Ok (lit "vi"))) Sample.s0))
    as Hup by (vm_compute; reflexivity).
  split; [exact Hin|]. split; [exact Hslow|]. split; [|split; [exact Hup|]].
  - intros W s. apply events_of_app.
    rewrite detect_slow_path by exact Hslow. reflexivity.
  - intros Hclaim.
    destruct (Hclaim Sample.world_up text Sample.s0 Hin) as [Hja _].
    rewrite Hup in Hja. revert Hja. vm_compute. discriminate.
Qed.

(** C1 (amended). A text with at least one character in U+3040..U+30FF
    (the Hiragana and Katakana blocks) or in U+4E00..U+9FFF (the CJK
    Unified Ideographs block) is detected as ["ja"]; the state is left as
    it was, so the statistical identifier has not been called. *)
Theorem C1_kana_or_cjk_detected_as_ja (W : World) (text : str) (s : state) :
  (exists ch, ch ∈ text /\ is_kana_or_cjk ch = true) ->
  detect_lang_simple W text s = (Ok (lit "ja"), s)
  /\ events_of (detect_lang_simple W text) s = [].
Proof.
  intros (ch & Hin & Hch).
  assert (existsb is_kana_or_cjk text = true) as Hany.
  { apply existsb_exists. exists ch. split; [by apply list_elem_of_In | done]. }
  pose proof (detect_fast_path W text s Hany) as Hrun.
  split; [done | by eapply events_of_same].
Qed.

Lemma C1_witness :
  (exists ch, ch ∈ lit "Xin chào 日本" /\ is_kana_or_cjk ch = true)
  /\ detect_lang_simple Sample.world_up (lit "Xin chào 日本") Sample.s0
     = (Ok (lit "ja"), Sample.s0).
Proof.
  assert (exists ch, ch ∈ lit "Xin chào 日本" /\ is_kana_or_cjk ch = true) as H.
  { exists 0x65E5. split; [|reflexivity].
    apply list_elem_of_In. vm_compute. tauto. }
  split; [exact H|].
  exact (proj1 (C1_kana_or_cjk_detected_as_ja Sample.world_up _ Sample.s0 H)).
Defined.

Lemma detect_fallback W text s :
  existsb is_kana_or_cjk text = false ->
  identifier_fails W (trace s) text ->
  detect_lang_simple W text s
  = (Ok (if forallb is_ascii text then lit "vi" else lit "ja"),
     log (EvDetect text (w_detect W (trace s) text)) s).
Proof.
  intros Hscript Hfail. rewrite detect_slow_path by done.
  destruct (w_detect W (trace s) text) as [lang|e] eqn:E; [|done].
  by rewrite str_in_false by auto.
Qed.

(** C2. With no kana/CJK character in the text, when the identifier
    raises or returns a code other than ["ja"] and ["vi"], the detector
    returns ["vi"] if every character is ASCII and ["ja"] otherwise. *)
Theorem C2_fallback_heuristic (W : World) (text : str) (s : state) :
  existsb is_kana_or_cjk text = false ->
  identifier_fails W (trace s) text ->
  fst (detect_lang_simple W text s)
  = Ok (if forallb is_ascii text then lit "vi" else lit "ja").
Proof.
  intros Hscript Hfail. by rewrite detect_fallback.
Qed.

Lemma C2_witness :
  existsb is_kana_or_cjk (lit "hello") = false
  /\ identifier_fails Sample.world_down (trace Sample.s0) (lit "hello")
  /\ fst (detect_lang_simple Sample.world_down (lit "hello") Sample.s0)
     = Ok (lit "vi").
Proof.
  assert (identifier_fails Sample.world_down (trace Sample.s0) (lit "hello"))
    as Hfail by (intros lang H; discriminate H).
  split; [reflexivity | split; [assumption|]].
  exact (C2_fallback_heuristic Sample.world_down (lit "hello") Sample.s0
                               eq_refl Hfail).
Defined.

(** *** Translation routing *)

Lemma auto_is_no_language lang :
  lang ∈ [lit "vi"; lit "ja"] -> lang <> lit "auto".
Proof.
  intros H ->. apply list_elem_of_In in H. vm_compute in H.
  destruct H as [H|[H|[]]]; discriminate H.
Qed.

Lemma resolve_src_explicit W text src s :
  src <> lit "auto" -> resolve_src W text src s = (Ok src, s).
Proof. intros H. unfold resolve_src. by rewrite bool_decide_eq_false_2. Qed.

Lemma resolve_src_auto W text s :
  resolve_src W text (lit "auto") s =
  match detect_lang_simple W text s with
  | (Ok detected, s') =>
    (Ok (if str_in detected [lit "vi"; lit "ja"] then detected else lit "vi"), s')
  | (Raise e, s') => (Raise e, s')
  end.
Proof.
  unfold resolve_src. rewrite bool_decide_eq_true_2 by done.
  unfold bind. destruct (detect_lang_simple W text s) as [[d|e] s']; [|done].
  by destruct (str_in d _).
Qed.

(** Resolving the source returns, and logs at most a call to the
    identifier. *)
Lemma resolve_src_run W text src s :
  exists src' evs,
    resolve_src W text src s
    = (Ok src', State (trace s ++ evs) (fs s) (session_chat s))
    /\ filter is_remote evs = [].
Proof.
  destruct (decide (src = lit "auto")) as [->|Hne].
  - rewrite resolve_src_auto.
    destruct (existsb is_kana_or_cjk text) eqn:E.
    + rewrite detect_fast_path by done. eexists _, [].
      rewrite app_nil_r. by destruct s.
    + rewrite detect_slow_path by done. by eexists _, [_].
  - rewrite resolve_src_explicit by done. eexists _, [].
    rewrite app_nil_r. by destruct s.
Qed.

Lemma translate_text_run W text src dst s :
  translate_text W text src dst s =
  match resolve_src W text src s with
  | (Ok src', s') =>
    if bool_decide (src' = dst) then (Ok text, s')
    else
      let req := translation_request text src' dst in
      let out := w_chat W (trace s') req in
      (Ok (translation_result out), log (EvChat req out) s')
  | (Raise e, s') => (Raise e, s')
  end.
Proof.
  unfold translate_text, bind at 1.
  destruct (resolve_src W text src s) as [[src'|e] s']; [|done].
  case_bool_decide; [done|].
  unfold try_except, bind, chat_completions_create, call.
  unfold translated_content, first, bind, ret, raise, translation_result.
  cbv zeta.
  destruct (w_chat W (trace s') _) as [[[|[[txt|]] rest]]|e]; simpl; try done.
  by destruct (truthy txt).
Qed.

(** C3. Translating from a language to itself returns the text and
    leaves the state as it was: no call of any kind.  More generally,
    when the source as resolved by lines 50-55 equals the destination,
    the text is returned unchanged and no remote call is logged. *)
Theorem C3_same_language_is_noop :
  (forall (W : World) (text lang : str) (s : state),
      lang ∈ [lit "vi"; lit "ja"] ->
      translate_text W text lang lang s = (Ok text, s)
      /\ events_of (translate_text W text lang lang) s = [])
  /\ (forall (W : World) (text src dst : str) (s : state),
         fst (resolve_src W text src s) = Ok dst ->
         fst (translate_text W text src dst s) = Ok text
         /\ filter is_remote (events_of (translate_text W text src dst) s) = []).
Proof.
  split.
  - intros W text lang s Hlang.
    assert (translate_text W text lang lang s = (Ok text, s)) as Hrun.
    { rewrite translate_text_run, resolve_src_explicit
        by by apply auto_is_no_language.
      by rewrite bool_decide_eq_true_2. }
    split; [done | by eapply events_of_same].
  - intros W text src dst s Hres.
    destruct (resolve_src_run W text src s) as (src' & evs & Hrun & Hevs).
    rewrite Hrun in Hres. simpl in Hres. injection Hres as ->.
    assert (translate_text W text src dst s
            = (Ok text, State (trace s ++ evs) (fs s) (session_chat s))) as Ht.
    { rewrite translate_text_run, Hrun. by rewrite bool_decide_eq_true_2. }
    split; [by rewrite Ht|].
    rewrite (events_of_app _ s evs); [done | by rewrite Ht].
Qed.

Lemma C3_witness :
  (lit "ja" ∈ [lit "vi"; lit "ja"]
   /\ translate_text Sample.world_down Sample.konnichiwa (lit "ja") (lit "ja")
        Sample.s0 = (Ok Sample.konnichiwa, Sample.s0))
  /\ (fst (resolve_src Sample.world_up Sample.xin_chao (lit "auto") Sample.s0)
      = Ok (lit "vi")
      /\ fst (translate_text Sample.world_up Sample.xin_chao (lit "auto")
                (lit "vi") Sample.s0) = Ok Sample.xin_chao).
Proof.
  assert (lit "ja" ∈ [lit "vi"; lit "ja"]) as Hin.
  { apply list_elem_of_In. vm_compute. tauto. }
  assert (fst (resolve_src Sample.world_up Sample.xin_chao (lit "auto") Sample.s0)
          = Ok (lit "vi")) as Hres by reflexivity.
  split; (split; [assumption|]).
  - exact (proj1 (proj1 C3_same_language_is_noop Sample.world_down
                        Sample.konnichiwa (lit "ja") Sample.s0 Hin)).
  - exact (proj1 (proj2 C3_same_language_is_noop Sample.world_up
                        Sample.xin_chao (lit "auto") (lit "vi") Sample.s0 Hres)).
Defined.

Lemma kana_cjk_text_has_one text :
  text <> [] -> forallb is_kana_or_cjk text = true ->
  existsb is_kana_or_cjk text = true.
Proof.
  destruct text as [|ch text]; [done|]. simpl. intros _ H.
  apply andb_prop in H as [-> _]. done.
Qed.

(** With [src == "auto"] and a text the fast path recognises, the routing
    is decided without the identifier. *)
Lemma translate_auto_fast_path W text dst s :
  existsb is_kana_or_cjk text = true ->
  translate_text W text (lit "auto") dst s =
  if bool_decide (lit "ja" = dst) then (Ok text, s)
  else
    let req := translation_request text (lit "ja") dst in
    let out := w_chat W (trace s) req in
    (Ok (translation_result out), log (EvChat req out) s).
Proof.
  intros H. by rewrite translate_text_run, resolve_src_auto, detect_fast_path.
Qed.

(** The claim C4 as the specification words it fails in two ways.  It
    covers the empty text, which is made of kana/CJK characters only,
    vacuously: there the fast path does not fire, the identifier is
    called, and when it raises (as it does on a text without features)
    the source is resolved to ["vi"].  And it covers the kana the detector
    does not test: a text of half-width katakana does not take the fast
    path either, and is resolved to what the identifier answers. *)
Lemma C4_counterexample_empty_or_halfwidth_text :
  forallb is_kana_or_cjk [] = true
  /\ lit "ja" ∈ [lit "vi"; lit "ja"]
  /\ fst (resolve_src Sample.world_down [] (lit "auto") Sample.s0) = Ok (lit "vi")
  /\ fst (resolve_src Sample.world_down [] (lit "auto") Sample.s0) <> Ok (lit "ja")
  /\ events_of (translate_text Sample.world_down [] (lit "auto") (lit "ja"))
               Sample.s0
     = [EvDetect [] (Raise Sample.no_features);
        EvChat (translation_request [] (lit "vi") (lit "ja"))
               (Raise Sample.connection_error)]
  /\ ~ (forall (W : World) (text dst : str) (s : state),
          forallb is_kana_or_cjk text = true ->
          dst ∈ [lit "vi"; lit "ja"] ->
          fst (resolve_src W text (lit "auto") s) = Ok (lit "ja"))
  /\ (let text := lit "ｺﾝﾆﾁﾊ" in
      text <> []
      /\ forallb unicode_kana_or_cjk_ideograph text = true
      /\ existsb is_kana_or_cjk text = false
      /\ fst (resolve_src Sample.world_up text (lit "auto") Sample.s0)
         = Ok (lit "vi")
      /\ filter is_remote
                (events_of (translate_text Sample.world_up text (lit "auto")
                                           (lit "ja")) Sample.s0)
         = [EvChat (translation_request text (lit "vi") (lit "ja"))
                   (Ok (ChatResponse [Choice (Some (lit " こんにちは "))]))])
  /\ ~ (forall (W : World) (text dst : str) (s : state),
          text <> [] ->
          forallb unicode_kana_or_cjk_ideograph text = true ->
          dst ∈ [lit "vi"; lit "ja"] ->
          fst (resolve_src W text (lit "auto") s) = Ok (lit "ja")).
Proof.
  assert (lit "ja" ∈ [lit "vi"; lit "ja"]) as Hdst.
  { apply list_elem_of_In. vm_compute. tauto. }
  assert (fst (resolve_src Sample.world_down [] (lit "auto") Sample.s0)
          <> Ok (lit "ja")) as Hvi by (vm_compute; discriminate).
  assert (lit "ｺﾝﾆﾁﾊ" <> []) as Hsaid by (vm_compute; discriminate).
  assert (forallb unicode_kana_or_cjk_ideograph (lit "ｺﾝﾆﾁﾊ") = true) as Hkana
      by (vm_compute; reflexivity).
  assert (fst (resolve_src Sample.world_up (lit "ｺﾝﾆﾁﾊ") (lit "auto") Sample.s0)
          <> Ok (lit "ja")) as Hup by (vm_compute; discriminate).
  repeat (split; [done|]).
  split; [intros Hclaim|split; [|intros Hclaim]].
  - exact (Hvi (Hclaim Sample.world_down [] (lit "ja") Sample.s0 eq_refl Hdst)).
  - cbv zeta. split; [exact Hsaid|]. split; [exact Hkana|].
    repeat (split; [vm_compute; reflexivity|]). vm_compute. reflexivity.
  - exact (Hup (Hclaim Sample.world_up (lit "ｺﾝﾆﾁﾊ") (lit "ja") Sample.s0
                       Hsaid Hkana Hdst)).
Qed.

(** C4 (amended). For every non-empty text made only of characters in
    U+3040..U+30FF (Hiragana, Katakana) or U+4E00..U+9FFF (CJK Unified
    Ideographs) and every destination in ["vi"], ["ja"], [src == "auto"] is
    resolved to ["ja"] by the fast path (the state is untouched: the
    identifier is not called), and the dispatch follows: nothing for
    destination ["ja"], one remote call tagged SRC=ja for ["vi"].  For
    "こんにちは" and destination ["vi"] the run logs exactly one event,
    the remote call whose user message starts with [[SRC=ja] [DST=vi]]. *)
Theorem C4_kana_cjk_text_resolves_to_ja :
  (forall (W : World) (text dst : str) (s : state),
      text <> [] ->
      forallb is_kana_or_cjk text = true ->
      dst ∈ [lit "vi"; lit "ja"] ->
      resolve_src W text (lit "auto") s = (Ok (lit "ja"), s)
      /\ events_of (translate_text W text (lit "auto") dst) s
         = if bool_decide (dst = lit "ja") then []
           else [EvChat (translation_request text (lit "ja") dst)
                        (w_chat W (trace s)
                                (translation_request text (lit "ja") dst))])
  /\ (forall (W : World) (s : state),
         let req := translation_request (lit "こんにちは") (lit "ja") (lit "vi") in
         events_of (translate_text W (lit "こんにちは") (lit "auto") (lit "vi")) s
         = [EvChat req (w_chat W (trace s) req)]
         /\ chat_messages req !! 1%nat
            = Some (Message (lit "user")
                            (lit "[SRC=ja] [DST=vi]" ++ [newline]
                             ++ lit "こんにちは"))).
Proof.
  split.
  - intros W text dst s Hne Hall Hdst.
    pose proof (kana_cjk_text_has_one text Hne Hall) as Hany.
    split.
    + by rewrite resolve_src_auto, detect_fast_path.
    + case_bool_decide as Hd.
      * subst dst. eapply events_of_same.
        rewrite translate_auto_fast_path by done.
        by rewrite bool_decide_eq_true_2.
      * apply events_of_app.
        rewrite translate_auto_fast_path by done.
        by rewrite bool_decide_eq_false_2 by congruence.
  - intros W s req. split; [|reflexivity].
    apply events_of_app.
    rewrite translate_auto_fast_path by reflexivity.
    by rewrite bool_decide_eq_false_2 by (vm_compute; discriminate).
Qed.

Lemma C4_witness :
  Sample.konnichiwa <> []
  /\ forallb is_kana_or_cjk Sample.konnichiwa = true
  /\ lit "vi" ∈ [lit "vi"; lit "ja"]
  /\ resolve_src Sample.world_up Sample.konnichiwa (lit "auto") Sample.s0
     = (Ok (lit "ja"), Sample.s0).
Proof.
  assert (Sample.konnichiwa <> []) as H1 by (vm_compute; discriminate).
  assert (forallb is_kana_or_cjk Sample.konnichiwa = true) as H2 by reflexivity.
  assert (lit "vi" ∈ [lit "vi"; lit "ja"]) as H3.
  { apply list_elem_of_In. vm_compute. tauto. }
  repeat (split; [assumption|]).
  exact (proj1 (proj1 C4_kana_cjk_text_resolves_to_ja Sample.world_up
                      Sample.konnichiwa (lit "vi") Sample.s0 H1 H2 H3)).
Defined.

(** The claim C5 as the specification words it has "Xin chào" detected
    as ["vi"] by the ASCII fallback.  The fallback is what runs when the
    identifier fails, and "à" (U+00E0) is not ASCII: the fallback yields
    ["ja"], the source equals the destination, and the text comes back
    with no remote call. *)
Lemma C5_counterexample_fallback_yields_ja :
  identifier_fails Sample.world_down (trace Sample.s0) Sample.xin_chao
  /\ forallb is_ascii Sample.xin_chao = false
  /\ fst (detect_lang_simple Sample.world_down Sample.xin_chao Sample.s0)
     = Ok (lit "ja")
  /\ fst (detect_lang_simple Sample.world_down Sample.xin_chao Sample.s0)
     <> Ok (lit "vi")
  /\ fst (translate_text Sample.world_down Sample.xin_chao (lit "auto")
                         (lit "ja") Sample.s0) = Ok Sample.xin_chao
  /\ filter is_remote
        (events_of (translate_text Sample.world_down Sample.xin_chao
                                   (lit "auto") (lit "ja")) Sample.s0) = [].
Proof.
  split; [intros lang H; discriminate H|].
  do 2 (split; [reflexivity|]).
  split; [vm_compute; discriminate|].
  split; reflexivity.
Qed.

Lemma xin_chao_not_in_script_ranges :
  existsb is_kana_or_cjk (lit "Xin chào") = false.
Proof. reflexivity. Qed.

(** C5 (amended). For "Xin chào" with [src == "auto"] and destination
    ["ja"]: when the statistical identifier answers ["vi"], the detector
    yields ["vi"] and the run logs the identifier call followed by exactly
    one remote translation call, tagged [[SRC=vi] [DST=ja]].  When the
    identifier fails instead, the fallback yields ["ja"] (the text is not
    all ASCII), and the text is returned with no remote call. *)
Theorem C5_xin_chao_routing :
  (forall (W : World) (s : state),
      w_detect W (trace s) (lit "Xin chào") = Ok (lit "vi") ->
      let req := translation_request (lit "Xin chào") (lit "vi") (lit "ja") in
      let asked := EvDetect (lit "Xin chào") (Ok (lit "vi")) in
      fst (detect_lang_simple W (lit "Xin chào") s) = Ok (lit "vi")
      /\ events_of (translate_text W (lit "Xin chào") (lit "auto") (lit "ja")) s
         = [asked; EvChat req (w_chat W (trace s ++ [asked]) req)]
      /\ chat_messages req !! 1%nat
         = Some (Message (lit "user")
                         (lit "[SRC=vi] [DST=ja]" ++ [newline]
                          ++ lit "Xin chào")))
  /\ (forall (W : World) (s : state),
         identifier_fails W (trace s) (lit "Xin chào") ->
         fst (detect_lang_simple W (lit "Xin chào") s) = Ok (lit "ja")
         /\ fst (translate_text W (lit "Xin chào") (lit "auto") (lit "ja") s)
            = Ok (lit "Xin chào")
         /\ filter is_remote
               (events_of (translate_text W (lit "Xin chào") (lit "auto")
                                          (lit "ja")) s) = []).
Proof.
  split.
  - intros W s Hvi req asked.
    pose proof (detect_slow_path W _ s xin_chao_not_in_script_ranges) as Hd.
    rewrite Hvi in Hd. change (str_in _ _) with true in Hd. cbv iota in Hd.
    split; [by rewrite Hd|]. split; [|reflexivity].
    apply events_of_app.
    rewrite translate_text_run, resolve_src_auto, Hd.
    change (str_in _ _) with true. cbv iota.
    rewrite bool_decide_eq_false_2 by (vm_compute; discriminate).
    cbv zeta. cbn [snd]. rewrite !trace_log. by rewrite <- app_assoc.
  - intros W s Hfail.
    pose proof (detect_fallback W _ s xin_chao_not_in_script_ranges Hfail)
      as Hd.
    change (forallb is_ascii _) with false in Hd. cbv iota in Hd.
    split; [by rewrite Hd|].
    assert (translate_text W (lit "Xin chào") (lit "auto") (lit "ja") s
            = (Ok (lit "Xin chào"),
               log (EvDetect (lit "Xin chào")
                             (w_detect W (trace s) (lit "Xin chào"))) s)) as Ht.
    { rewrite translate_text_run, resolve_src_auto, Hd.
      change (str_in _ _) with true. cbv iota.
      by rewrite bool_decide_eq_true_2. }
    split; [by rewrite Ht|].
    by rewrite (events_of_app _ s [EvDetect _ _]) by by rewrite Ht.
Qed.

Lemma C5_witness :
  (w_detect Sample.world_up (trace Sample.s0) (lit "Xin chào") = Ok (lit "vi")
   /\ fst (detect_lang_simple Sample.world_up (lit "Xin chào") Sample.s0)
      = Ok (lit "vi"))
  /\ (identifier_fails Sample.world_down (trace Sample.s0) (lit "Xin chào")
      /\ fst (detect_lang_simple Sample.world_down (lit "Xin chào") Sample.s0)
         = Ok (lit "ja")).
Proof.
  assert (w_detect Sample.world_up (trace Sample.s0) (lit "Xin chào")
          = Ok (lit "vi")) as Hup by reflexivity.
  assert (identifier_fails Sample.world_down (trace Sample.s0) (lit "Xin chào"))
    as Hdown by (intros lang H; discriminate H).
  split; (split; [assumption|]).
  - exact (proj1 (proj1 C5_xin_chao_routing Sample.world_up Sample.s0 Hup)).
  - exact (proj1 (proj2 C5_xin_chao_routing Sample.world_down Sample.s0 Hdown)).
Defined.

Lemma translate_text_returns W text src dst s :
  exists out, fst (translate_text W text src dst s) = Ok out.
Proof.
  rewrite translate_text_run.
  destruct (resolve_src_run W text src s) as (src' & evs & -> & _).
  case_bool_decide; eauto.
Qed.

(** C6. [translate_text] returns on every input and in every world.
    When a remote call is made (the resolved source differs from the
    destination): an exception of the call gives the error string built
    from its message; a first choice whose content is missing or empty
    gives the fixed failure string; a first choice with content gives that
    content stripped, and nothing else.  A response without choices fails
    at [choices[0]] inside the [try] and gives an error string too. *)
Theorem C6_translation_failures_in_band
        (W : World) (text src dst : str) (s : state) :
  (exists out, fst (translate_text W text src dst s) = Ok out)
  /\ (forall (src' : str) (s' : state),
         resolve_src W text src s = (Ok src', s') ->
         src' <> dst ->
         let answer := w_chat W (trace s') (translation_request text src' dst) in
         let result := fst (translate_text W text src dst s) in
         (forall e, answer = Raise e ->
                    result = Ok (lit "Translation error: " ++ exn_msg e))
         /\ (forall c rest,
                answer = Ok (ChatResponse (c :: rest)) ->
                message_content c = None \/ message_content c = Some [] ->
                result = Ok (lit "Translation failed"))
         /\ (forall txt rest,
                answer = Ok (ChatResponse (Choice (Some txt) :: rest)) ->
                txt <> [] ->
                result = Ok (strip txt))
         /\ (answer = Ok (ChatResponse []) ->
             result = Ok (lit "Translation error: list index out of range"))).
Proof.
  split; [apply translate_text_returns|].
  intros src' s' Hres Hne answer result. subst result.
  rewrite translate_text_run, Hres, bool_decide_eq_false_2 by done.
  cbv zeta. cbn [fst]. fold answer.
  repeat split.
  - by intros e ->.
  - intros c rest -> [Hc|Hc]; simpl; by rewrite Hc.
  - intros txt rest -> Htxt. simpl. by destruct txt.
  - intros ->. vm_compute. reflexivity.
Qed.

Lemma C6_witness :
  (resolve_src Sample.world_down Sample.konnichiwa (lit "ja") Sample.s0
   = (Ok (lit "ja"), Sample.s0)
   /\ lit "ja" <> lit "vi"
   /\ fst (translate_text Sample.world_down Sample.konnichiwa (lit "ja")
                          (lit "vi") Sample.s0)
      = Ok (lit "Translation error: Connection error."))
  /\ (resolve_src Sample.world_up Sample.xin_chao (lit "vi") Sample.s0
      = (Ok (lit "vi"), Sample.s0)
      /\ lit "vi" <> lit "ja"
      /\ fst (translate_text Sample.world_up Sample.xin_chao (lit "vi")
                             (lit "ja") Sample.s0)
         = Ok (lit "こんにちは")).
Proof.
  assert (lit "ja" <> lit "vi") as Hjv by (vm_compute; discriminate).
  assert (lit "vi" <> lit "ja") as Hvj by (vm_compute; discriminate).
  split; (split; [reflexivity | split; [assumption|]]).
  - exact (proj1 (proj2 (C6_translation_failures_in_band
                           Sample.world_down Sample.konnichiwa (lit "ja")
                           (lit "vi") Sample.s0)
                        (lit "ja") Sample.s0 eq_refl Hjv)
                 Sample.connection_error eq_refl).
  - refine (proj1 (proj2 (proj2 (proj2 (C6_translation_failures_in_band
                           Sample.world_up Sample.xin_chao (lit "vi")
                           (lit "ja") Sample.s0)
                        (lit "vi") Sample.s0 eq_refl Hvj)))
                 (lit " こんにちは ") [] eq_refl _).
    vm_compute. discriminate.
Defined.

(** *** The speech pipeline *)

Lemma open_rb_present path data s :
  fs s !! path = Some data -> open_rb path s = (Ok data, s).
Proof. intros H. unfold open_rb. by rewrite H. Qed.

Lemma cleanup_present W path data s :
  fs s !! path = Some data ->
  let refusal := w_remove_denied W (trace s) path in
  suppress is_OSError (os_remove W path) s =
  (Ok tt,
   log (EvRemove path (removal_outcome refusal))
       (match refusal with
        | None => set_fs (delete path (fs s)) s
        | Some _ => s
        end)).
Proof.
  intros H refusal. unfold suppress, os_remove. rewrite H. fold refusal.
  by destruct refusal.
Qed.

(** When the temporary file cannot be created or written, the function
    raises before its [try]. *)
Lemma transcribe_bytes_fault W wav_bytes lang_hint s fault :
  w_tmp_fault W (trace s) wav_bytes = Some fault ->
  transcribe_bytes W wav_bytes lang_hint s =
  match fault with
  | CreateFails msg => (Raise (Exn OSError msg), s)
  | WriteFails msg written =>
    (Raise (Exn OSError msg),
     set_fs (<[w_tmp_name W (trace s) := written]> (fs s)) s)
  end.
Proof.
  intros H. unfold transcribe_bytes, bind at 1, named_temporary_file.
  rewrite H. by destruct fault.
Qed.

Lemma transcribe_bytes_run W wav_bytes lang_hint s :
  w_tmp_fault W (trace s) wav_bytes = None ->
  let tmp_path := w_tmp_name W (trace s) in
  let language :=
    if str_in lang_hint [lit "vi"; lit "ja"] then Some lang_hint else None in
  let req := SttRequest STT_MODEL wav_bytes language in
  let written := EvTmpWrite tmp_path wav_bytes in
  let answer := w_transcribe W (trace s ++ [written]) req in
  let asked := EvTranscribe req answer in
  let refusal := w_remove_denied W (trace s ++ [written; asked]) tmp_path in
  transcribe_bytes W wav_bytes lang_hint s =
  (match answer with
   | Ok stt => Ok (strip (stt_text stt))
   | Raise e => Raise e
   end,
   State (trace s ++ [written; asked; EvRemove tmp_path (removal_outcome refusal)])
         (match refusal with
          | None => delete tmp_path (<[tmp_path := wav_bytes]> (fs s))
          | Some _ => <[tmp_path := wav_bytes]> (fs s)
          end)
         (session_chat s)).
Proof.
  intros Hfault tmp_path language req written answer asked refusal.
  unfold transcribe_bytes, bind at 1, named_temporary_file. rewrite Hfault.
  fold tmp_path written. unfold try_finally, bind.
  set (s1 := log written (set_fs (<[tmp_path:=wav_bytes]> (fs s)) s)).
  assert (fs s1 !! tmp_path = Some wav_bytes) as Hfile
      by apply lookup_insert_eq.
  rewrite (open_rb_present _ _ _ Hfile).
  fold language req. unfold audio_transcriptions_create, call.
  change (trace s1) with (trace s ++ [written]). fold answer asked.
  assert (fs (log asked s1) !! tmp_path = Some wav_bytes) as Hfile' by done.
  assert (trace (log asked s1) = trace s ++ [written; asked]) as Htr.
  { unfold log, s1. simpl. by rewrite <- app_assoc. }
  destruct answer as [stt|e]; unfold ret;
    rewrite (cleanup_present W _ _ _ Hfile'); rewrite Htr; fold refusal;
    destruct refusal; unfold log, set_fs, s1; simpl;
    by rewrite <- !app_assoc.
Qed.

(** C7 (code bug). The claim has the temporary file removed on every
    exit path.  Lines 84-86 are before the [try]: when writing the file
    (or closing it) raises, [transcribe_bytes] raises that [OSError],
    no removal is attempted and no call is made, and the file is still on
    disk when the function exits. *)
Theorem C7_failed_write_leaves_the_file
        (W : World) (wav_bytes : bytes) (lang_hint : str) (s : state)
        (msg : str) (written : bytes) :
  w_tmp_fault W (trace s) wav_bytes = Some (WriteFails msg written) ->
  let tmp_path := w_tmp_name W (trace s) in
  let run := transcribe_bytes W wav_bytes lang_hint s in
  fst run = Raise (Exn OSError msg)
  /\ fs (snd run) !! tmp_path = Some written
  /\ events_of (transcribe_bytes W wav_bytes lang_hint) s = []
  /\ (forall out, EvRemove tmp_path out
                  ∉ events_of (transcribe_bytes W wav_bytes lang_hint) s).
Proof.
  intros Hfault tmp_path run.
  pose proof (transcribe_bytes_fault W wav_bytes lang_hint s _ Hfault) as Hrun.
  fold run tmp_path in Hrun.
  assert (events_of (transcribe_bytes W wav_bytes lang_hint) s = []) as Hev.
  { apply events_of_app. fold run. rewrite Hrun. cbn. by rewrite app_nil_r. }
  split; [by rewrite Hrun|]. split; [|split; [done|]].
  - rewrite Hrun. cbn. apply lookup_insert_eq.
  - intros out. rewrite Hev. apply not_elem_of_nil.
Qed.

Lemma C7_witness :
  let run := transcribe_bytes Scenario.world_full_disk Sample.recording
                              (lit "auto") Sample.s0 in
  w_tmp_fault Scenario.world_full_disk (trace Sample.s0) Sample.recording
  = Some (WriteFails (lit "[Errno 28] No space left on device") [])
  /\ fst run = Raise (Exn OSError (lit "[Errno 28] No space left on device"))
  /\ fs (snd run) !! lit "/tmp/tmpq7w2e5.wav" = Some [].
Proof.
  intros run. split; [reflexivity|].
  pose proof (C7_failed_write_leaves_the_file
                Scenario.world_full_disk Sample.recording (lit "auto") Sample.s0
                (lit "[Errno 28] No space left on device") [] eq_refl)
    as (H1 & H2 & _).
  split; assumption.
Defined.



Example transcribe_ok_file_removed :
  let run := transcribe_bytes Sample.world_up Sample.recording (lit "vi") Sample.s0 in
  fst run = Ok (lit "xin chao")
  /\ fs (snd run) !! lit "/tmp/tmpk3v9x1.wav" = None.
Proof. split; reflexivity. Qed.

Example transcribe_removal_refused_is_swallowed :
  let run := transcribe_bytes Sample.world_down Sample.recording (lit "auto") Sample.s0 in
  fst run = Raise Sample.connection_error
  /\ fs (snd run) !! lit "/tmp/tmpk3v9x1.wav" = Some Sample.recording.
Proof. split; reflexivity. Qed.

Lemma speak_blank W text voice fmt s :
  strip text = [] -> speak W text voice fmt s = (Ok ([], lit "audio/mp3"), s).
Proof. intros H. unfold speak. by rewrite H. Qed.

Lemma speak_run W text voice fmt s :
  strip text <> [] ->
  let req := TtsRequest TTS_MODEL voice text in
  let upstream := w_speech W (trace s) req in
  speak W text voice fmt s =
  match upstream with
  | Raise e => (Raise e, log (EvSpeech req (Raise e)) s)
  | Ok raw =>
    let s1 := log (EvSpeech req (Ok raw)) s in
    if bool_decide (fmt = lit "mp3") then (Ok (raw, lit "audio/mp3"), s1)
    else
      let converted := w_mp3_to_wav W (trace s1) raw in
      (Ok match converted with
          | Ok wav => (wav, lit "audio/wav")
          | Raise _ => (raw, lit "audio/mp3")
          end,
       log (EvConvert raw converted) s1)
  end.
Proof.
  intros H req upstream. unfold speak.
  destruct (strip text) as [|ch rest] eqn:E; [done|]. cbn [truthy negb].
  unfold bind, audio_speech_create, call. fold req upstream.
  destruct upstream as [raw|e]; [|done].
  case_bool_decide; [done|].
  unfold try_except, bind, mp3_to_wav, call, ret. cbv zeta.
  by destruct (w_mp3_to_wav W _ raw).
Qed.

(** C8. For the empty text, whatever the voice and the format, [speak]
    returns no bytes with the media type ["audio/mp3"] and leaves the
    state as it was: nothing is sent to the synthesis service. *)
Theorem C8_speak_empty_text (W : World) (voice fmt : str) (s : state) :
  speak W [] voice fmt s = (Ok ([], lit "audio/mp3"), s)
  /\ events_of (speak W [] voice fmt) s = [].
Proof.
  assert (speak W [] voice fmt s = (Ok ([], lit "audio/mp3"), s)) as Hrun
      by by apply speak_blank.
  split; [done | by eapply events_of_same].
Qed.

(** When the conversion is reached and fails, the upstream bytes come
    back as MP3. *)
Lemma speak_conversion_failure W text voice fmt s raw e :
  strip text <> [] ->
  fmt <> lit "mp3" ->
  let req := TtsRequest TTS_MODEL voice text in
  w_speech W (trace s) req = Ok raw ->
  w_mp3_to_wav W (trace s ++ [EvSpeech req (Ok raw)]) raw = Raise e ->
  speak W text voice fmt s
  = (Ok (raw, lit "audio/mp3"),
     log (EvConvert raw (Raise e)) (log (EvSpeech req (Ok raw)) s)).
Proof.
  intros Htext Hfmt req Hup Hconv.
  rewrite speak_run by done. fold req. rewrite Hup.
  rewrite bool_decide_eq_false_2 by done. cbv zeta.
  rewrite trace_log. by rewrite Hconv.
Qed.

(** C9. A run of [speak] on a non-empty text with a format other than
    ["mp3"] in which the local conversion is attempted and fails returns
    the bytes the synthesis service gave, with the media type
    ["audio/mp3"]; it does not raise.  The run consists of the synthesis
    call and the failed conversion. *)
Theorem C9_conversion_failure_returns_mp3
        (W : World) (text voice fmt : str) (s : state) (raw : bytes) (e : exn) :
  text <> [] ->
  fmt <> lit "mp3" ->
  EvConvert raw (Raise e) ∈ events_of (speak W text voice fmt) s ->
  fst (speak W text voice fmt s) = Ok (raw, lit "audio/mp3")
  /\ events_of (speak W text voice fmt) s
     = [EvSpeech (TtsRequest TTS_MODEL voice text) (Ok raw);
        EvConvert raw (Raise e)].
Proof.
  intros _ Hfmt Hin.
  destruct (decide (strip text = [])) as [Hblank|Hsaid].
  { rewrite (events_of_same _ s _ (speak_blank W text voice fmt s Hblank)) in Hin.
    by apply elem_of_nil in Hin. }
  pose proof (speak_run W text voice fmt s Hsaid) as Hrun. cbv zeta in Hrun.
  set (req := TtsRequest TTS_MODEL voice text) in *.
  destruct (w_speech W (trace s) req) as [raw0|e0] eqn:Hup.
  - rewrite bool_decide_eq_false_2 in Hrun by done.
    set (conv := w_mp3_to_wav W _ raw0) in Hrun.
    assert (events_of (speak W text voice fmt) s
            = [EvSpeech req (Ok raw0); EvConvert raw0 conv]) as Hev.
    { apply events_of_app. rewrite Hrun. cbn [snd].
      rewrite !trace_log. by rewrite <- app_assoc. }
    rewrite Hev in Hin.
    apply elem_of_cons in Hin as [Hin|Hin]; [discriminate Hin|].
    apply list_elem_of_singleton in Hin. injection Hin as <- Hconv.
    rewrite Hev, Hrun, <- Hconv. done.
  - assert (events_of (speak W text voice fmt) s = [EvSpeech req (Raise e0)])
      as Hev by (apply events_of_app; by rewrite Hrun).
    rewrite Hev in Hin. apply list_elem_of_singleton in Hin. discriminate Hin.
Qed.

Lemma C9_witness :
  Sample.konnichiwa <> []
  /\ lit "wav" <> lit "mp3"
  /\ fst (speak Sample.world_up Sample.konnichiwa (lit "alloy") (lit "wav")
               Sample.s0)
     = Ok ([Byte.x49; Byte.x44; Byte.x33], lit "audio/mp3").
Proof.
  assert (Sample.konnichiwa <> []) as H1 by (vm_compute; discriminate).
  assert (lit "wav" <> lit "mp3") as H2 by (vm_compute; discriminate).
  split; [assumption | split; [assumption|]].
  refine (proj1 (C9_conversion_failure_returns_mp3
                   Sample.world_up Sample.konnichiwa (lit "alloy") (lit "wav")
                   Sample.s0 [Byte.x49; Byte.x44; Byte.x33]
                   Sample.decode_error H1 H2 _)).
  apply list_elem_of_In. vm_compute. tauto.
Defined.

(** *** Conversation mode *)

Lemma keeps_chat_ret {A} (a : A) : keeps_chat (ret a).
Proof. by intros s. Qed.

Lemma keeps_chat_raise {A} (e : exn) : keeps_chat (@raise A e).
Proof. by intros s. Qed.

Lemma keeps_chat_call {R} (oracle : list event -> outcome R) ev :
  keeps_chat (call oracle ev).
Proof. by intros s. Qed.

Lemma keeps_chat_bind {A B} (m : M A) (k : A -> M B) :
  keeps_chat m -> (forall a, keeps_chat (k a)) -> keeps_chat (bind m k).
Proof.
  intros Hm Hk s. unfold bind. specialize (Hm s).
  destruct (m s) as [[a|e] s1]; [|done].
  simpl in Hm. by rewrite Hk.
Qed.

Lemma keeps_chat_try_except {A} (body : M A) (handler : exn -> M A) :
  keeps_chat body -> (forall e, keeps_chat (handler e)) ->
  keeps_chat (try_except body handler).
Proof.
  intros Hb Hh s. unfold try_except. specialize (Hb s).
  destruct (body s) as [[a|e] s1]; [done|].
  simpl in Hb. by rewrite Hh.
Qed.

Create HintDb chat.
#[local] Hint Resolve keeps_chat_ret keeps_chat_raise keeps_chat_call : chat.

Ltac keeps_chat_step :=
  match goal with
  | |- keeps_chat (bind _ _) => apply keeps_chat_bind; [|intros]
  | |- keeps_chat (try_except _ _) => apply keeps_chat_try_except; [|intros]
  | |- keeps_chat (if ?b then _ else _) => destruct b
  | |- keeps_chat (match ?x with _ => _ end) => destruct x
  | |- keeps_chat _ => solve [auto with chat]
  end.

Lemma keeps_chat_detect_lang_simple W text :
  keeps_chat (detect_lang_simple W text).
Proof. unfold detect_lang_simple, detect. repeat keeps_chat_step. Qed.

Lemma keeps_chat_translate_text W text src dst :
  keeps_chat (translate_text W text src dst).
Proof.
  pose proof (keeps_chat_detect_lang_simple W text).
  unfold translate_text, resolve_src, translated_content, first,
    chat_completions_create.
  repeat keeps_chat_step.
Qed.

Lemma keeps_chat_transcribe_bytes W wav_bytes lang_hint :
  keeps_chat (transcribe_bytes W wav_bytes lang_hint).
Proof.
  intros s. destruct (w_tmp_fault W (trace s) wav_bytes) as [fault|] eqn:E.
  - rewrite (transcribe_bytes_fault _ _ _ _ _ E). by destruct fault.
  - by rewrite transcribe_bytes_run.
Qed.

Lemma keeps_chat_speak W text voice fmt : keeps_chat (speak W text voice fmt).
Proof.
  unfold speak, audio_speech_create, mp3_to_wav. repeat keeps_chat_step.
Qed.

Lemma keeps_chat_st_audio data mime : keeps_chat (st_audio data mime).
Proof. by intros s. Qed.

#[local] Hint Resolve keeps_chat_detect_lang_simple keeps_chat_translate_text
  keeps_chat_transcribe_bytes keeps_chat_speak keeps_chat_st_audio : chat.

(** Lines 207-209 do not touch the history. *)
Lemma keeps_chat_playback W translation tts_voice audio_format :
  keeps_chat (res <- speak W translation tts_voice audio_format ;;
              let '(audio_bytes, mime) := res in
              if truthy audio_bytes then st_audio audio_bytes mime else ret tt).
Proof.
  apply keeps_chat_bind; [auto with chat|]. intros [audio_bytes mime].
  repeat keeps_chat_step.
Qed.

(** The outcome of a transcription depends on the events so far, not on
    the session. *)
Lemma transcribe_bytes_outcome W wav_bytes lang_hint s s' :
  trace s = trace s' ->
  fst (transcribe_bytes W wav_bytes lang_hint s)
  = fst (transcribe_bytes W wav_bytes lang_hint s').
Proof.
  intros H.
  destruct (w_tmp_fault W (trace s) wav_bytes) as [fault|] eqn:E.
  - rewrite (transcribe_bytes_fault _ _ _ s _ E).
    rewrite H in E. rewrite (transcribe_bytes_fault _ _ _ s' _ E).
    by destruct fault.
  - rewrite (transcribe_bytes_run _ _ _ s E).
    rewrite H in E. rewrite (transcribe_bytes_run _ _ _ s' E).
    cbn [fst]. by rewrite H.
Qed.

Lemma bind_run {A B} (m : M A) (k : A -> M B) (s : state) :
  bind m k s = match m s with
               | (Ok a, s') => k a s'
               | (Raise e, s') => (Raise e, s')
               end.
Proof. reflexivity. Qed.

(** What one recorded turn does to the history. *)
Lemma voice_turn_chat W tts_voice audio_format wav_bytes s c :
  session_chat s = Some c ->
  match fst (transcribe_bytes W wav_bytes (lit "auto") s) with
  | Raise _ =>
    session_chat (snd (voice_turn W tts_voice audio_format wav_bytes s)) = Some c
  | Ok heard =>
    exists t,
      session_chat (snd (voice_turn W tts_voice audio_format wav_bytes s))
      = Some (c ++ [t])
      /\ speaker t = speaker_label (length c)
      /\ transcript t = heard
  end.
Proof.
  intros Hc.
  pose proof (keeps_chat_transcribe_bytes W wav_bytes (lit "auto") s) as H1.
  unfold voice_turn. rewrite bind_run.
  destruct (transcribe_bytes W wav_bytes (lit "auto") s) as [[heard|e] s1];
    cbn [fst snd] in *; [|congruence].
  rewrite Hc in H1. rewrite bind_run.
  pose proof (keeps_chat_detect_lang_simple W heard s1) as H2.
  destruct (detect_returns W heard s1) as [detected Hd].
  destruct (detect_lang_simple W heard s1) as [r2 s2].
  cbn [fst snd] in *. subst r2. rewrite H1 in H2. rewrite bind_run.
  set (target := if bool_decide (detected = lit "vi") then lit "ja" else lit "vi").
  pose proof (keeps_chat_translate_text W heard detected target s2) as H3.
  destruct (translate_text_returns W heard detected target s2) as [translated Ht].
  destruct (translate_text W heard detected target s2) as [r3 s3].
  cbn [fst snd] in *. subst r3. rewrite H2 in H3.
  rewrite bind_run. unfold get_chat at 1. rewrite H3.
  rewrite bind_run. unfold chat_append at 1. rewrite bind_run.
  unfold get_chat at 1. rewrite H3.
  eexists. split; [|split].
  - rewrite keeps_chat_playback. reflexivity.
  - reflexivity.
  - reflexivity.
Qed.

Lemma conversation_mode_chat W tts_voice audio_format wav_bytes s :
  let s' := snd (conversation_mode W tts_voice audio_format wav_bytes s) in
  if records_turn W wav_bytes s
  then exists t, chat_of s' = chat_of s ++ [t]
                 /\ speaker t = speaker_label (length (chat_of s))
  else chat_of s' = chat_of s.
Proof.
  unfold conversation_mode. rewrite bind_run.
  assert (exists s1, init_chat s = (Ok tt, s1)
                     /\ session_chat s1 = Some (chat_of s)
                     /\ trace s1 = trace s) as (s1 & -> & Hc & Htr).
  { unfold init_chat, chat_of. destruct (session_chat s) eqn:E; eauto. }
  assert (chat_of s1 = chat_of s) as Hsame by (unfold chat_of at 1; by rewrite Hc).
  destruct wav_bytes as [wav|]; [|done]. cbn [records_turn].
  destruct (truthy wav); [|done]. cbn [andb].
  pose proof (voice_turn_chat W tts_voice audio_format wav s1 _ Hc) as Hturn.
  rewrite (transcribe_bytes_outcome W wav (lit "auto") s s1) by done.
  destruct (fst (transcribe_bytes W wav (lit "auto") s1)) as [heard|e]; cbv zeta.
  - destruct Hturn as (t & Ht & Hlabel & _). exists t.
    unfold chat_of at 1. by rewrite Ht.
  - unfold chat_of at 1. by rewrite Hturn.
Qed.

Lemma alternating_nil : alternating [].
Proof. intros i t H. by rewrite lookup_nil in H. Qed.

Lemma alternating_snoc c t :
  alternating c -> speaker t = speaker_label (length c) -> alternating (c ++ [t]).
Proof.
  intros Hc Ht i t' Hi.
  apply lookup_app_Some in Hi as [Hi|[Hlen Hi]]; [by apply Hc|].
  apply list_lookup_singleton_Some in Hi as [Hz ->].
  replace i with (length c) by lia. done.
Qed.

Lemma conversation_mode_alternating W tts_voice audio_format wav_bytes s :
  alternating (chat_of s) ->
  alternating (chat_of (snd (conversation_mode W tts_voice audio_format wav_bytes s))).
Proof.
  intros H.
  pose proof (conversation_mode_chat W tts_voice audio_format wav_bytes s) as Hrun.
  cbv zeta in Hrun. destruct (records_turn W wav_bytes s).
  - destruct Hrun as (t & -> & Hlabel). by apply alternating_snoc.
  - by rewrite Hrun.
Qed.

Lemma run_session_alternating W runs s :
  alternating (chat_of s) -> alternating (chat_of (run_session W runs s)).
Proof.
  revert s. induction runs as [|[[tts_voice audio_format] wav_bytes] rest IH];
    intros s H; [done|].
  simpl. by apply IH, conversation_mode_alternating.
Qed.

Lemma speaker_label_parity n :
  speaker_label n = if Nat.even n then lit "A" else lit "B".
Proof.
  unfold speaker_label.
  rewrite <- Nat.bit0_mod, Nat.bit0_odd, <- Nat.negb_even.
  by destruct (Nat.even n).
Qed.

(** C10. The label of a turn is ["A"] when the number of turns already
    recorded is even and ["B"] when it is odd.  A run of the handler does
    one of two things to the history: it appends one turn, labelled by the
    parity of the length it found, when audio was recorded and
    transcribed; otherwise it leaves the history as it is.  Hence in every
    history grown from the empty one the turn at index [i] carries the
    label of [i], and three consecutive recorded turns from an empty
    history are labelled A, B, A. *)
Theorem C10_speaker_label_by_parity :
  (forall n : nat,
      speaker_label n = if Nat.even n then lit "A" else lit "B")
  /\ (forall (W : World) (tts_voice audio_format : str)
             (wav_bytes : option bytes) (s : state),
         let s' := snd (conversation_mode W tts_voice audio_format wav_bytes s) in
         if records_turn W wav_bytes s
         then exists t, chat_of s' = chat_of s ++ [t]
                        /\ speaker t = speaker_label (length (chat_of s))
         else chat_of s' = chat_of s)
  /\ (forall (W : World) (runs : list (str * str * option bytes)) (s : state),
         chat_of s = [] ->
         forall i t, chat_of (run_session W runs s) !! i = Some t ->
                     speaker t = speaker_label i)
  /\ (forall (W : World) (v1 f1 v2 f2 v3 f3 : str) (wav1 wav2 wav3 : bytes)
             (s : state),
         let s1 := snd (conversation_mode W v1 f1 (Some wav1) s) in
         let s2 := snd (conversation_mode W v2 f2 (Some wav2) s1) in
         let s3 := snd (conversation_mode W v3 f3 (Some wav3) s2) in
         chat_of s = [] ->
         records_turn W (Some wav1) s = true ->
         records_turn W (Some wav2) s1 = true ->
         records_turn W (Some wav3) s2 = true ->
         map speaker (chat_of s3) = [lit "A"; lit "B"; lit "A"]).
Proof.
  split; [exact speaker_label_parity|].
  split; [exact conversation_mode_chat|].
  split.
  - intros W runs s Hempty.
    apply (run_session_alternating W runs s). rewrite Hempty.
    apply alternating_nil.
  - intros W v1 f1 v2 f2 v3 f3 wav1 wav2 wav3 s s1 s2 s3 Hempty R1 R2 R3.
    pose proof (conversation_mode_chat W v1 f1 (Some wav1) s) as H1.
    pose proof (conversation_mode_chat W v2 f2 (Some wav2) s1) as H2.
    pose proof (conversation_mode_chat W v3 f3 (Some wav3) s2) as H3.
    cbv zeta in H1, H2, H3. fold s1 in H1. fold s2 in H2. fold s3 in H3.
    rewrite R1 in H1. rewrite R2 in H2. rewrite R3 in H3.
    destruct H1 as (t1 & E1 & L1), H2 as (t2 & E2 & L2), H3 as (t3 & E3 & L3).
    rewrite Hempty in *. rewrite E1 in *. rewrite E2 in *. rewrite E3.
    simpl. rewrite L1, L2, L3. reflexivity.
Qed.

Lemma C10_witness :
  let W := Sample.world_up in
  let recorded := Some Sample.recording in
  let s1 := snd (conversation_mode W (lit "alloy") (lit "mp3") recorded Sample.s0) in
  let s2 := snd (conversation_mode W (lit "alloy") (lit "mp3") recorded s1) in
  let s3 := snd (conversation_mode W (lit "alloy") (lit "mp3") recorded s2) in
  (chat_of Sample.s0 = []
   /\ records_turn W recorded Sample.s0 = true
   /\ records_turn W recorded s1 = true
   /\ records_turn W recorded s2 = true)
  /\ map speaker (chat_of s3) = [lit "A"; lit "B"; lit "A"].
Proof.
  intros W recorded s1 s2 s3.
  assert (chat_of Sample.s0 = []) as H0 by reflexivity.
  assert (records_turn W recorded Sample.s0 = true) as R1 by (vm_compute; reflexivity).
  assert (records_turn W recorded s1 = true) as R2 by (vm_compute; reflexivity).
  assert (records_turn W recorded s2 = true) as R3 by (vm_compute; reflexivity).
  split; [by repeat split|].
  exact (proj2 (proj2 (proj2 C10_speaker_label_by_parity)) W
               (lit "alloy") (lit "mp3") (lit "alloy") (lit "mp3")
               (lit "alloy") (lit "mp3")
               Sample.recording Sample.recording Sample.recording
               Sample.s0 H0 R1 R2 R3).
Defined.

(** ** Further properties of the helpers *)

(** *** Stripping *)

Lemma lstrip_keeps s ch rest :
  lstrip s = ch :: rest -> is_space ch = false.
Proof.
  induction s as [|c s IH]; [done|]. simpl.
  destruct (is_space c) eqn:E; [done|]. by intros [= <- _].
Qed.

Lemma lstrip_stable ch s : is_space ch = false -> lstrip (ch :: s) = ch :: s.
Proof. intros H. simpl. by rewrite H. Qed.

Lemma lstrip_idem s : lstrip (lstrip s) = lstrip s.
Proof.
  destruct (lstrip s) as [|ch rest] eqn:E; [done|].
  apply lstrip_stable. by eapply lstrip_keeps.
Qed.

Lemma lstrip_snoc s ch :
  is_space ch = false -> lstrip (s ++ [ch]) = lstrip s ++ [ch].
Proof.
  intros H. induction s as [|c s IH]; simpl; [by rewrite H|].
  by destruct (is_space c).
Qed.

Lemma lstrip_blank s : lstrip s = [] <-> forallb is_space s = true.
Proof.
  induction s as [|c s IH]; [done|]. simpl.
  destruct (is_space c); [done|]. split; discriminate.
Qed.

Lemma rstrip_cons ch s :
  is_space ch = false -> rstrip (ch :: s) = ch :: rstrip s.
Proof.
  intros H. unfold rstrip. simpl.
  by rewrite lstrip_snoc, rev_app_distr.
Qed.

Lemma rstrip_idem s : rstrip (rstrip s) = rstrip s.
Proof. unfold rstrip. by rewrite rev_involutive, lstrip_idem. Qed.

Lemma strip_idem s : strip (strip s) = strip s.
Proof.
  unfold strip. destruct (lstrip s) as [|ch rest] eqn:E; [done|].
  pose proof (lstrip_keeps _ _ _ E) as Hch.
  rewrite rstrip_cons by done. rewrite lstrip_stable by done.
  rewrite <- rstrip_cons by done. apply rstrip_idem.
Qed.

Lemma strip_head s ch rest : strip s = ch :: rest -> is_space ch = false.
Proof.
  unfold strip. destruct (lstrip s) as [|c r] eqn:E; [done|].
  pose proof (lstrip_keeps _ _ _ E) as Hc.
  rewrite rstrip_cons by done. by intros [= <- _].
Qed.

Lemma strip_last s ch : last (strip s) = Some ch -> is_space ch = false.
Proof.
  unfold strip, rstrip.
  destruct (lstrip (rev (lstrip s))) as [|c r] eqn:E; [done|].
  simpl. rewrite last_snoc. intros [= <-]. by eapply lstrip_keeps.
Qed.

Lemma forallb_is_space_rev s :
  forallb is_space (rev s) = forallb is_space s.
Proof.
  induction s as [|c s IH]; [done|]. simpl.
  rewrite forallb_app, IH. simpl. by rewrite andb_true_r, andb_comm.
Qed.

Lemma strip_blank s : strip s = [] <-> forallb is_space s = true.
Proof.
  unfold strip. split.
  - intros H. destruct (lstrip s) as [|c r] eqn:E; [by apply lstrip_blank|].
    pose proof (lstrip_keeps _ _ _ E). by rewrite rstrip_cons in H.
  - intros H. apply lstrip_blank in H. by rewrite H.
Qed.

Lemma strip_is_stripped s : is_stripped (strip s).
Proof.
  split; [apply strip_idem|]. split.
  - intros ch rest. apply strip_head.
  - intros ch. apply strip_last.
Qed.

(** *** The detector, beyond the claims *)

Lemma ja_is_not_vi : lit "ja" <> lit "vi".
Proof. vm_compute. discriminate. Qed.

Lemma str_in_spec x l : str_in x l = true <-> x ∈ l.
Proof. unfold str_in. apply bool_decide_eq_true. Qed.

Lemma pair_of_languages (lang : str) :
  lang ∈ [lit "ja"; lit "vi"] <-> lang = lit "ja" \/ lang = lit "vi".
Proof.
  rewrite elem_of_cons, list_elem_of_singleton. tauto.
Qed.

Lemma pair_of_languages' (lang : str) :
  lang ∈ [lit "vi"; lit "ja"] <-> lang = lit "ja" \/ lang = lit "vi".
Proof.
  rewrite elem_of_cons, list_elem_of_singleton. tauto.
Qed.

(** The result of the detector is one of the two languages. *)
Lemma detect_in_languages W text s :
  exists lang,
    fst (detect_lang_simple W text s) = Ok lang
    /\ (lang = lit "ja" \/ lang = lit "vi").
Proof.
  destruct (existsb is_kana_or_cjk text) eqn:E.
  - rewrite detect_fast_path by done. eauto.
  - rewrite detect_slow_path by done. cbn [fst]. eexists. split; [done|].
    destruct (w_detect W (trace s) text) as [lang|e].
    + destruct (str_in lang _) eqn:Hin.
      * by apply str_in_spec, pair_of_languages in Hin.
      * destruct (forallb is_ascii text); auto.
    + destruct (forallb is_ascii text); auto.
Qed.

(** X1. Whatever the text and whatever the identifier does, the detector
    returns, and what it returns is ["ja"] or ["vi"]. *)
Theorem X1_detector_answers_ja_or_vi (W : World) (text : str) (s : state) :
  fst (detect_lang_simple W text s) = Ok (lit "ja")
  \/ fst (detect_lang_simple W text s) = Ok (lit "vi").
Proof.
  destruct (detect_in_languages W text s) as (lang & -> & [->| ->]); auto.
Qed.

Lemma detect_events W text s :
  detect_lang_simple W text s
  = (fst (detect_lang_simple W text s),
     if existsb is_kana_or_cjk text then s
     else log (EvDetect text (w_detect W (trace s) text)) s).
Proof.
  destruct (existsb is_kana_or_cjk text) eqn:E.
  - by rewrite detect_fast_path.
  - by rewrite detect_slow_path.
Qed.

Lemma detect_events_of W text s :
  events_of (detect_lang_simple W text) s
  = (if existsb is_kana_or_cjk text then []
     else [EvDetect text (w_detect W (trace s) text)]).
Proof.
  apply events_of_app. rewrite detect_events. cbn [snd].
  destruct (existsb is_kana_or_cjk text); [by rewrite app_nil_r | done].
Qed.

(** X2. The detector asks the statistical identifier at most once, and
    exactly when the text has no character in the script ranges; it makes
    no other call, and touches neither the files nor the history. *)
Theorem X2_detector_effects (W : World) (text : str) (s : state) :
  events_of (detect_lang_simple W text) s
  = (if existsb is_kana_or_cjk text then []
     else [EvDetect text (w_detect W (trace s) text)])
  /\ filter is_remote (events_of (detect_lang_simple W text) s) = []
  /\ fs (snd (detect_lang_simple W text s)) = fs s
  /\ session_chat (snd (detect_lang_simple W text s)) = session_chat s.
Proof.
  pose proof (detect_events_of W text s) as Hev.
  split; [done|]. split.
  - rewrite Hev. by destruct (existsb is_kana_or_cjk text).
  - rewrite detect_events. cbn [snd].
    by destruct (existsb is_kana_or_cjk text).
Qed.

(** X3. The detector answers ["vi"] exactly when the text has no
    character in the ranges tested on line 38 (U+3040..U+30FF and
    U+4E00..U+9FFF) and either the identifier answers
    ["vi"], or the identifier fails and every character is ASCII.  In
    particular a Vietnamese text with diacritics is taken for Japanese
    whenever the identifier fails. *)
Theorem X3_detector_answers_vi_iff (W : World) (text : str) (s : state) :
  fst (detect_lang_simple W text s) = Ok (lit "vi")
  <-> existsb is_kana_or_cjk text = false
      /\ (w_detect W (trace s) text = Ok (lit "vi")
          \/ (identifier_fails W (trace s) text
              /\ forallb is_ascii text = true)).
Proof.
  pose proof ja_is_not_vi as Hne.
  assert (forall A (x y : A), @Ok A x = Ok y -> x = y) as Hinj by congruence.
  destruct (existsb is_kana_or_cjk text) eqn:E.
  { rewrite detect_fast_path by done. cbn [fst].
    split; [intros H; by apply Hinj in H | intros [H _]; discriminate H]. }
  rewrite detect_slow_path by done. cbn [fst]. unfold identifier_fails.
  destruct (w_detect W (trace s) text) as [lang|e] eqn:Hd.
  - destruct (str_in lang _) eqn:Hin.
    + split.
      * intros H. apply Hinj in H. subst lang. auto.
      * intros [_ [H|[Hfail _]]]; [by apply Hinj in H; subst lang|].
        apply str_in_spec in Hin. by apply (Hfail lang) in Hin.
    + assert (lang ∉ [lit "ja"; lit "vi"]) as Hout.
      { intros H. apply str_in_spec in H. congruence. }
      destruct (forallb is_ascii text); split.
      * intros _. split; [done|]. right. split; [|done].
        intros l H. apply Hinj in H. by subst l.
      * done.
      * intros H. by apply Hinj in H.
      * intros [_ [H|[_ H]]]; [|discriminate H].
        apply Hinj in H. destruct Hout. apply pair_of_languages. auto.
  - destruct (forallb is_ascii text); split.
    + intros _. split; [done|]. right. split; [|done].
      intros l H. discriminate H.
    + done.
    + intros H. by apply Hinj in H.
    + intros [_ [H|[_ H]]]; discriminate H.
Qed.

Lemma X3_witness :
  fst (detect_lang_simple Sample.world_down (lit "Xin chao") Sample.s0)
  = Ok (lit "vi")
  /\ fst (detect_lang_simple Sample.world_down (lit "Xin chào") Sample.s0)
     <> Ok (lit "vi").
Proof.
  split.
  - apply (proj2 (X3_detector_answers_vi_iff Sample.world_down (lit "Xin chao")
                                             Sample.s0)).
    split; [reflexivity|]. right. split; [|reflexivity].
    intros lang H. discriminate H.
  - intros H.
    apply (proj1 (X3_detector_answers_vi_iff Sample.world_down (lit "Xin chào")
                                             Sample.s0)) in H.
    destruct H as [_ [H|[_ H]]]; discriminate H.
Defined.

(** *** Translation routing, beyond the claims *)

Lemma resolve_src_auto_is_detect W text s :
  resolve_src W text (lit "auto") s = detect_lang_simple W text s.
Proof.
  rewrite resolve_src_auto.
  destruct (detect_in_languages W text s) as (lang & Hlang & Hpair).
  destruct (detect_lang_simple W text s) as [r s']. cbn [fst] in Hlang.
  subst r. apply pair_of_languages', str_in_spec in Hpair. by rewrite Hpair.
Qed.

(** X4. With [src == "auto"] the source handed to the routing is exactly
    what the detector returned, with the detector's effects and nothing
    more: the default of line 55 is never taken. *)
Theorem X4_auto_source_is_the_detected_one (W : World) (text : str) (s : state) :
  resolve_src W text (lit "auto") s = detect_lang_simple W text s.
Proof. apply resolve_src_auto_is_detect. Qed.

(** The trace of a translation: what resolving the source logged, then
    the remote call if there is one. *)
Lemma translate_text_trace W text src dst s src' s' :
  resolve_src W text src s = (Ok src', s') ->
  exists evs,
    trace s' = trace s ++ evs
    /\ filter is_remote evs = []
    /\ (src <> lit "auto" -> evs = [])
    /\ trace (snd (translate_text W text src dst s))
       = trace s ++ evs
         ++ (if bool_decide (src' = dst) then []
             else [EvChat (translation_request text src' dst)
                          (w_chat W (trace s') (translation_request text src' dst))]).
Proof.
  intros Hres.
  destruct (resolve_src_run W text src s) as (r & evs & Hrun & Hevs).
  rewrite Hrun in Hres. injection Hres as -> <-.
  exists evs. split; [done|]. split; [done|]. split.
  - intros Hne. rewrite resolve_src_explicit in Hrun by done.
    injection Hrun as _ Htr. destruct s as [tr f c]. simpl in Htr.
    injection Htr as Htr. rewrite <- (app_nil_r tr) in Htr at 1.
    by apply app_inv_head in Htr.
  - rewrite translate_text_run, Hrun.
    case_bool_decide; cbn [snd]; [by rewrite app_nil_r|].
    cbv zeta. rewrite trace_log. cbn [trace]. by rewrite <- app_assoc.
Qed.

(** X5. A translation makes at most one remote call, and makes it exactly
    when the resolved source differs from the destination.  With an
    explicit source the identifier is not asked either: the run logs that
    one call or nothing. *)
Theorem X5_translation_calls (W : World) (text src dst : str) (s : state) :
  (length (filter is_remote (events_of (translate_text W text src dst) s)) <= 1)%nat
  /\ (filter is_remote (events_of (translate_text W text src dst) s) = []
      <-> fst (resolve_src W text src s) = Ok dst)
  /\ (src <> lit "auto" ->
      events_of (translate_text W text src dst) s
      = if bool_decide (src = dst) then []
        else [EvChat (translation_request text src dst)
                     (w_chat W (trace s) (translation_request text src dst))]).
Proof.
  destruct (resolve_src_run W text src s) as (src' & evs0 & Hrun & _).
  destruct (translate_text_trace W text src dst s _ _ Hrun)
    as (evs & Htr & Hlocal & Hexplicit & Hall).
  apply events_of_app in Hall.
  assert (filter is_remote (events_of (translate_text W text src dst) s)
          = if bool_decide (src' = dst) then []
            else [EvChat (translation_request text src' dst)
                         (w_chat W (trace s ++ evs0)
                                 (translation_request text src' dst))]) as Hrem.
  { rewrite Hall, filter_app, Hlocal. by case_bool_decide. }
  rewrite Hrun. cbn [fst]. split; [|split].
  - rewrite Hrem. case_bool_decide; simpl; lia.
  - rewrite Hrem. case_bool_decide; split; try done; congruence.
  - intros Hne. rewrite Hall, (Hexplicit Hne).
    rewrite resolve_src_explicit in Hrun by done.
    injection Hrun as <- Hs. rewrite <- Hs. done.
Qed.

Lemma X5_witness :
  lit "vi" <> lit "auto"
  /\ events_of (translate_text Sample.world_down Sample.xin_chao (lit "vi")
                               (lit "ja")) Sample.s0
     = [EvChat (translation_request Sample.xin_chao (lit "vi") (lit "ja"))
               (Raise Sample.connection_error)].
Proof.
  assert (lit "vi" <> lit "auto") as Hne by (vm_compute; discriminate).
  split; [assumption|].
  exact (proj2 (proj2 (X5_translation_calls Sample.world_down Sample.xin_chao
                                            (lit "vi") (lit "ja") Sample.s0))
               Hne).
Defined.

Lemma translate_text_explicit W text src dst s :
  src <> lit "auto" -> src <> dst ->
  fst (translate_text W text src dst s)
  = Ok (translation_result (w_chat W (trace s) (translation_request text src dst))).
Proof.
  intros Hauto Hne.
  rewrite translate_text_run, resolve_src_explicit by done.
  by rewrite bool_decide_eq_false_2.
Qed.

(** X6. The caller cannot tell a failure from a translation by the
    returned string: a response without content and a response whose
    content is the words "Translation failed" give the same result, and
    so do an exception with message [m] and a response whose content is
    "Translation error: " followed by [m] (when [m] does not end in
    white space). *)
Theorem X6_failure_strings_are_ambiguous
        (W1 W2 : World) (text src dst : str) (s : state) :
  src <> lit "auto" ->
  src <> dst ->
  let req := translation_request text src dst in
  (w_chat W1 (trace s) req = Ok (ChatResponse [Choice None]) ->
   w_chat W2 (trace s) req
   = Ok (ChatResponse [Choice (Some (lit "Translation failed"))]) ->
   fst (translate_text W1 text src dst s) = fst (translate_text W2 text src dst s))
  /\ (forall e,
         let said := lit "Translation error: " ++ exn_msg e in
         strip said = said ->
         w_chat W1 (trace s) req = Raise e ->
         w_chat W2 (trace s) req = Ok (ChatResponse [Choice (Some said)]) ->
         fst (translate_text W1 text src dst s)
         = fst (translate_text W2 text src dst s)).
Proof.
  intros Hauto Hne req. split.
  - intros H1 H2. rewrite !translate_text_explicit by done.
    fold req. rewrite H1, H2. vm_compute. reflexivity.
  - intros e said Hsaid H1 H2. rewrite !translate_text_explicit by done.
    fold req. rewrite H1, H2. unfold translation_result. cbn [choices message_content].
    fold said. rewrite Hsaid.
    assert (truthy said = true) as -> by reflexivity. done.
Qed.

Lemma X6_witness :
  (lit "vi" <> lit "auto" /\ lit "vi" <> lit "ja")
  /\ fst (translate_text Scenario.world_silent Sample.xin_chao (lit "vi")
                         (lit "ja") Sample.s0)
     = fst (translate_text Scenario.world_parrot Sample.xin_chao (lit "vi")
                           (lit "ja") Sample.s0).
Proof.
  assert (lit "vi" <> lit "auto") as H1 by (vm_compute; discriminate).
  assert (lit "vi" <> lit "ja") as H2 by (vm_compute; discriminate).
  split; [by split|].
  exact (proj1 (X6_failure_strings_are_ambiguous
                  Scenario.world_silent Scenario.world_parrot Sample.xin_chao
                  (lit "vi") (lit "ja") Sample.s0 H1 H2)
               eq_refl eq_refl).
Defined.

(** X7. When the service answers with content, the returned translation
    has no white space at either end and stripping it again changes
    nothing; a content made of white space only gives the empty string,
    not the failure string. *)
Theorem X7_translation_is_stripped
        (W : World) (text src dst : str) (s : state)
        (src' : str) (s' : state) (txt : str) (rest : list choice) :
  resolve_src W text src s = (Ok src', s') ->
  src' <> dst ->
  w_chat W (trace s') (translation_request text src' dst)
  = Ok (ChatResponse (Choice (Some txt) :: rest)) ->
  txt <> [] ->
  exists out,
    fst (translate_text W text src dst s) = Ok out
    /\ is_stripped out
    /\ (forallb is_space txt = true -> out = []).
Proof.
  intros Hres Hne Hans Htxt. exists (strip txt). split; [|split].
  - rewrite translate_text_run, Hres, bool_decide_eq_false_2 by done.
    cbv zeta. rewrite Hans. cbn. by destruct txt.
  - apply strip_is_stripped.
  - apply strip_blank.
Qed.

Lemma X7_witness :
  exists out,
    fst (translate_text Sample.world_up Sample.xin_chao (lit "vi") (lit "ja")
                        Sample.s0) = Ok out
    /\ is_stripped out.
Proof.
  assert (lit "vi" <> lit "ja") as Hne by (vm_compute; discriminate).
  assert (lit " こんにちは " <> []) as Htxt by (vm_compute; discriminate).
  destruct (X7_translation_is_stripped
              Sample.world_up Sample.xin_chao (lit "vi") (lit "ja") Sample.s0
              (lit "vi") Sample.s0 (lit " こんにちは ") [] eq_refl Hne eq_refl Htxt)
    as (out & Hout & Hs & _).
  exists out. by split.
Defined.

(** *** The speech pipeline, beyond the claims *)

(** X8. With a name for the temporary file that is not in use:
    [transcribe_bytes] leaves the file system exactly as it found it when
    the file is written and the system lets it be removed (whether the
    transcription returned or raised), and also when the file cannot be
    created; when writing the file fails, what was written is left under
    that name and nothing else changes. *)
Theorem X8_transcription_leaves_no_file
        (W : World) (wav_bytes : bytes) (lang_hint : str) (s : state) :
  let tmp_path := w_tmp_name W (trace s) in
  let language :=
    if str_in lang_hint [lit "vi"; lit "ja"] then Some lang_hint else None in
  let req := SttRequest STT_MODEL wav_bytes language in
  let written := EvTmpWrite tmp_path wav_bytes in
  let asked := EvTranscribe req (w_transcribe W (trace s ++ [written]) req) in
  let fault := w_tmp_fault W (trace s) wav_bytes in
  let after := fs (snd (transcribe_bytes W wav_bytes lang_hint s)) in
  fs s !! tmp_path = None ->
  (fault = None ->
   w_remove_denied W (trace s ++ [written; asked]) tmp_path = None ->
   after = fs s)
  /\ (forall msg, fault = Some (CreateFails msg) -> after = fs s)
  /\ (forall msg left,
         fault = Some (WriteFails msg left) ->
         after = <[tmp_path := left]> (fs s)).
Proof.
  intros tmp_path language req written asked fault after Hfresh.
  subst after fault. split; [|split].
  - intros Hfault Hallowed. rewrite transcribe_bytes_run by done. cbv zeta.
    fold tmp_path language req written asked. rewrite Hallowed. cbn [snd fs].
    by apply delete_insert_id.
  - intros msg Hfault. by rewrite (transcribe_bytes_fault _ _ _ _ _ Hfault).
  - intros msg left Hfault. by rewrite (transcribe_bytes_fault _ _ _ _ _ Hfault).
Qed.

Lemma X8_witness :
  fs Sample.s0 !! w_tmp_name Sample.world_up (trace Sample.s0) = None
  /\ fs (snd (transcribe_bytes Sample.world_up Sample.recording (lit "ja")
                               Sample.s0)) = fs Sample.s0.
Proof.
  split; [reflexivity|].
  exact (proj1 (X8_transcription_leaves_no_file Sample.world_up Sample.recording
                                                (lit "ja") Sample.s0 eq_refl)
               eq_refl eq_refl).
Defined.

(** X9. A transcript that comes back has no white space at either end;
    when the service heard only white space (or nothing), the transcript
    is the empty string. *)
Theorem X9_transcript_is_stripped
        (W : World) (wav_bytes : bytes) (lang_hint : str) (s : state) (heard : str) :
  fst (transcribe_bytes W wav_bytes lang_hint s) = Ok heard ->
  is_stripped heard
  /\ exists stt,
      w_transcribe W
        (trace s ++ [EvTmpWrite (w_tmp_name W (trace s)) wav_bytes])
        (SttRequest STT_MODEL wav_bytes
           (if str_in lang_hint [lit "vi"; lit "ja"] then Some lang_hint else None))
      = Ok stt
      /\ heard = strip (stt_text stt)
      /\ (forallb is_space (stt_text stt) = true -> heard = []).
Proof.
  destruct (w_tmp_fault W (trace s) wav_bytes) as [fault|] eqn:Hfault.
  { rewrite (transcribe_bytes_fault _ _ _ _ _ Hfault). by destruct fault. }
  rewrite transcribe_bytes_run by done. cbv zeta. cbn [fst].
  destruct (w_transcribe W _ _) as [stt|e]; [|done].
  intros [= <-]. split; [apply strip_is_stripped|].
  exists stt. split; [done|]. split; [done|]. apply strip_blank.
Qed.

Lemma X9_witness :
  fst (transcribe_bytes Sample.world_up Sample.recording (lit "vi") Sample.s0)
  = Ok (lit "xin chao")
  /\ is_stripped (lit "xin chao").
Proof.
  assert (fst (transcribe_bytes Sample.world_up Sample.recording (lit "vi")
                                Sample.s0) = Ok (lit "xin chao")) as H
      by reflexivity.
  split; [assumption|].
  exact (proj1 (X9_transcript_is_stripped Sample.world_up Sample.recording
                                          (lit "vi") Sample.s0 _ H)).
Defined.



Lemma speak_blank_iff_no_call W text voice fmt s :
  strip text = [] <-> events_of (speak W text voice fmt) s = [].
Proof.
  split.
  - intros H. eapply events_of_same. by apply speak_blank.
  - intros Hev. destruct (decide (strip text = [])) as [|Hsaid]; [done|].
    pose proof (speak_run W text voice fmt s Hsaid) as Hrun. cbv zeta in Hrun.
    assert (exists ev evs, events_of (speak W text voice fmt) s = ev :: evs)
      as (ev & evs & Hsome); [|congruence].
    destruct (w_speech W (trace s) _) as [raw|e].
    + case_bool_decide.
      * eexists _, _. apply events_of_app. by rewrite Hrun.
      * eexists _, _. apply events_of_app. rewrite Hrun. cbn [snd].
        rewrite !trace_log, <- app_assoc. reflexivity.
    + eexists _, _. apply events_of_app. by rewrite Hrun.
Qed.

(** X11. A text made of white space only is treated like the empty text:
    no bytes, ["audio/mp3"], state untouched.  Conversely a run of
    [speak] that logs nothing was given such a text: every other text is
    sent to the synthesis service. *)
Theorem X11_blank_text_is_not_spoken
        (W : World) (text voice fmt : str) (s : state) :
  (forallb is_space text = true ->
   speak W text voice fmt s = (Ok ([], lit "audio/mp3"), s))
  /\ (events_of (speak W text voice fmt) s = []
      <-> forallb is_space text = true).
Proof.
  split.
  - intros H. by apply speak_blank, strip_blank.
  - rewrite <- strip_blank. symmetry. apply speak_blank_iff_no_call.
Qed.

Lemma X11_witness :
  forallb is_space (lit "   ") = true
  /\ speak Sample.world_up (lit "   ") (lit "alloy") (lit "wav") Sample.s0
     = (Ok ([], lit "audio/mp3"), Sample.s0).
Proof.
  split; [reflexivity|].
  exact (proj1 (X11_blank_text_is_not_spoken Sample.world_up (lit "   ")
                                             (lit "alloy") (lit "wav") Sample.s0)
               eq_refl).
Defined.

(** X12. [speak] raises exactly when the text is not blank and the
    synthesis call raises, and then with the exception of that call: it
    is not caught.  A failing conversion never makes [speak] raise. *)
Theorem X12_synthesis_failure_propagates
        (W : World) (text voice fmt : str) (s : state) (e : exn) :
  fst (speak W text voice fmt s) = Raise e
  <-> strip text <> []
      /\ w_speech W (trace s) (TtsRequest TTS_MODEL voice text) = Raise e.
Proof.
  destruct (decide (strip text = [])) as [Hblank|Hsaid].
  { rewrite speak_blank by done. cbn [fst]. split; [discriminate | tauto]. }
  rewrite speak_run by done. cbv zeta.
  destruct (w_speech W (trace s) _) as [raw|e0].
  - case_bool_decide as Hfmt; cbn [fst]; split; try discriminate;
      intros [_ Hup]; discriminate Hup.
  - cbn [fst]. split; [intros [= ->]; done | intros [_ [= ->]]; done].
Qed.

Lemma X12_witness :
  fst (speak Sample.world_down Sample.konnichiwa (lit "alloy") (lit "wav")
             Sample.s0) = Raise Sample.connection_error.
Proof.
  apply (proj2 (X12_synthesis_failure_propagates
                  Sample.world_down Sample.konnichiwa (lit "alloy") (lit "wav")
                  Sample.s0 Sample.connection_error)).
  split; [vm_compute; discriminate | reflexivity].
Defined.

Lemma mp3_is_not_wav : lit "audio/mp3" <> lit "audio/wav".
Proof. vm_compute. discriminate. Qed.

(** X13. What [speak] returns carries the media type ["audio/mp3"] or
    ["audio/wav"], whatever format was asked for.  It is ["audio/wav"]
    only when the format is not ["mp3"] and the converter produced the
    bytes returned; with the format ["mp3"] the converter is not run and
    the bytes are those of the synthesis service.  At most one remote
    call is made. *)
Theorem X13_media_type_of_speech
        (W : World) (text voice fmt : str) (s : state) (data : bytes) (mime : str) :
  fst (speak W text voice fmt s) = Ok (data, mime) ->
  let req := TtsRequest TTS_MODEL voice text in
  (mime = lit "audio/mp3" \/ mime = lit "audio/wav")
  /\ (mime = lit "audio/wav" ->
      fmt <> lit "mp3"
      /\ exists raw,
          w_speech W (trace s) req = Ok raw
          /\ w_mp3_to_wav W (trace s ++ [EvSpeech req (Ok raw)]) raw = Ok data)
  /\ (fmt = lit "mp3" ->
      mime = lit "audio/mp3"
      /\ forall raw out, EvConvert raw out ∉ events_of (speak W text voice fmt) s)
  /\ (length (filter is_remote (events_of (speak W text voice fmt) s)) <= 1)%nat.
Proof.
  pose proof mp3_is_not_wav as Hmw.
  destruct (decide (strip text = [])) as [Hblank|Hsaid].
  { rewrite (events_of_same _ s _ (speak_blank W text voice fmt s Hblank)).
    rewrite speak_blank by done. cbn [fst]. intros [= <- <-].
    split; [auto|]. split; [done|]. split; [|simpl; lia].
    intros _. split; [done|]. intros raw out H. by apply elem_of_nil in H. }
  pose proof (speak_run W text voice fmt s Hsaid) as Hrun. cbv zeta in Hrun.
  intros Hret req. fold req in Hrun.
  destruct (w_speech W (trace s) req) as [raw|e0] eqn:Hup;
    [|rewrite Hrun in Hret; discriminate Hret].
  case_bool_decide as Hfmt.
  - rewrite (events_of_app _ s [EvSpeech req (Ok raw)]) by by rewrite Hrun.
    rewrite Hrun in Hret. cbn [fst] in Hret. injection Hret as <- <-.
    split; [auto|]. split; [done|]. split; [|simpl; lia].
    intros _. split; [done|]. intros r o H.
    apply list_elem_of_singleton in H. discriminate H.
  - set (conv := w_mp3_to_wav W _ raw) in Hrun.
    rewrite (events_of_app _ s [EvSpeech req (Ok raw); EvConvert raw conv]).
    2: { rewrite Hrun. cbn [snd]. rewrite !trace_log. by rewrite <- app_assoc. }
    rewrite Hrun in Hret. cbn [fst] in Hret.
    unfold conv in *. rewrite trace_log in Hret.
    destruct (w_mp3_to_wav W _ raw) as [wav|e1] eqn:Hconv;
      injection Hret as <- <-.
    + split; [auto|]. split; [eauto|]. split; [done | simpl; lia].
    + split; [auto|]. split; [done|]. split; [done | simpl; lia].
Qed.

Lemma X13_witness :
  fst (speak Scenario.world_mute Sample.konnichiwa (lit "alloy") (lit "ogg")
             Sample.s0)
  = Ok ([Byte.x52; Byte.x49; Byte.x46; Byte.x46], lit "audio/wav")
  /\ (lit "audio/wav" = lit "audio/mp3" \/ lit "audio/wav" = lit "audio/wav").
Proof.
  assert (fst (speak Scenario.world_mute Sample.konnichiwa (lit "alloy")
                     (lit "ogg") Sample.s0)
          = Ok ([Byte.x52; Byte.x49; Byte.x46; Byte.x46], lit "audio/wav")) as H
      by reflexivity.
  split; [assumption|].
  exact (proj1 (X13_media_type_of_speech
                  Scenario.world_mute Sample.konnichiwa (lit "alloy") (lit "ogg")
                  Sample.s0 _ _ H)).
Defined.

(** *** How the helpers extend the trace *)

Lemma grows_events {A} (m : M A) s :
  grows m -> trace (snd (m s)) = trace s ++ events_of m s.
Proof.
  intros H. destruct (H s) as [evs Hevs].
  by rewrite (events_of_app m s evs Hevs).
Qed.

Lemma grows_detect_lang_simple W text : grows (detect_lang_simple W text).
Proof.
  intros s. rewrite detect_events. cbn [snd].
  destruct (existsb is_kana_or_cjk text); [exists [] | eexists [_]]; [|done].
  by rewrite app_nil_r.
Qed.

Lemma grows_translate_text W text src dst : grows (translate_text W text src dst).
Proof.
  intros s. destruct (resolve_src_run W text src s) as (src' & evs0 & Hrun & _).
  destruct (translate_text_trace W text src dst s _ _ Hrun) as (evs & _ & _ & _ & H).
  eauto.
Qed.

Lemma grows_transcribe_bytes W wav_bytes lang_hint :
  grows (transcribe_bytes W wav_bytes lang_hint).
Proof.
  intros s. destruct (w_tmp_fault W (trace s) wav_bytes) as [fault|] eqn:E.
  - rewrite (transcribe_bytes_fault _ _ _ _ _ E). exists [].
    rewrite app_nil_r. by destruct fault.
  - rewrite transcribe_bytes_run by done. cbv zeta. cbn [snd trace]. eauto.
Qed.

Lemma grows_speak W text voice fmt : grows (speak W text voice fmt).
Proof.
  intros s. destruct (decide (strip text = [])) as [Hblank|Hsaid].
  { rewrite speak_blank by done. exists []. by rewrite app_nil_r. }
  rewrite speak_run by done. cbv zeta.
  destruct (w_speech W (trace s) _) as [raw|e]; [|by eexists [_]].
  case_bool_decide; [by eexists [_]|].
  eexists [_; _]. cbn [snd]. rewrite !trace_log. by rewrite <- app_assoc.
Qed.

Lemma services_app evs1 evs2 :
  services (evs1 ++ evs2) = services evs1 ++ services evs2.
Proof. apply omap_app. Qed.

Lemma services_detect W text s :
  services (events_of (detect_lang_simple W text) s) = [].
Proof.
  rewrite detect_events_of. by destruct (existsb is_kana_or_cjk text).
Qed.

Lemma services_local evs : filter is_remote evs = [] -> services evs = [].
Proof.
  induction evs as [|ev evs IH]; [done|].
  rewrite filter_cons. destruct ev; simpl; try done; apply IH.
Qed.

Lemma services_translate_text W text src dst s :
  services (events_of (translate_text W text src dst) s)
  = match fst (resolve_src W text src s) with
    | Ok src' => if bool_decide (src' = dst) then [] else [Translation]
    | Raise _ => []
    end.
Proof.
  destruct (resolve_src_run W text src s) as (src' & evs0 & Hrun & _).
  destruct (translate_text_trace W text src dst s _ _ Hrun)
    as (evs & _ & Hlocal & _ & Hall).
  rewrite (events_of_app _ s _ Hall), services_app, (services_local _ Hlocal).
  rewrite Hrun. cbn [fst]. by case_bool_decide.
Qed.

Lemma services_transcribe_bytes W wav_bytes lang_hint s :
  services (events_of (transcribe_bytes W wav_bytes lang_hint) s)
  = match w_tmp_fault W (trace s) wav_bytes with
    | None => [Transcription]
    | Some _ => []
    end.
Proof.
  destruct (w_tmp_fault W (trace s) wav_bytes) as [fault|] eqn:E.
  - rewrite (events_of_app _ s []); [reflexivity|].
    rewrite (transcribe_bytes_fault _ _ _ _ _ E), app_nil_r. by destruct fault.
  - erewrite events_of_app; [|rewrite transcribe_bytes_run by done; reflexivity].
    reflexivity.
Qed.

(** A transcription that returns went through: the file was written. *)
Lemma transcribe_bytes_ok_written W wav_bytes lang_hint s heard :
  fst (transcribe_bytes W wav_bytes lang_hint s) = Ok heard ->
  w_tmp_fault W (trace s) wav_bytes = None.
Proof.
  destruct (w_tmp_fault W (trace s) wav_bytes) as [fault|] eqn:E; [|done].
  rewrite (transcribe_bytes_fault _ _ _ _ _ E). by destruct fault.
Qed.

(** The events of [speak]: the synthesis call, then the conversion when
    one is asked for. *)
Lemma speak_events W text voice fmt s :
  events_of (speak W text voice fmt) s
  = if decide (strip text = []) then []
    else
      let req := TtsRequest TTS_MODEL voice text in
      match w_speech W (trace s) req with
      | Raise e => [EvSpeech req (Raise e)]
      | Ok raw =>
        EvSpeech req (Ok raw)
        :: (if bool_decide (fmt = lit "mp3") then []
            else [EvConvert raw
                    (w_mp3_to_wav W (trace s ++ [EvSpeech req (Ok raw)]) raw)])
      end.
Proof.
  destruct (decide (strip text = [])) as [Hblank|Hsaid].
  { eapply events_of_same. by apply speak_blank. }
  apply events_of_app. rewrite speak_run by done. cbv zeta.
  destruct (w_speech W (trace s) _) as [raw|e]; [|done].
  case_bool_decide; [done|]. cbn [snd]. rewrite !trace_log. by rewrite <- app_assoc.
Qed.

Lemma services_speak W text voice fmt s :
  services (events_of (speak W text voice fmt) s)
  = if decide (strip text = []) then [] else [Synthesis].
Proof.
  rewrite speak_events. destruct (decide (strip text = [])); [done|].
  cbv zeta. destruct (w_speech W (trace s) _); [|done].
  by case_bool_decide.
Qed.

(** *** Running the pages *)

Lemma ui_bind_run {A B} (m : UI A) (k : A -> UI B) (p : page) :
  ui_bind m k p = match m p with
                  | (Ok a, p') => k a p'
                  | (Raise e, p') => (Raise e, p')
                  end.
Proof. reflexivity. Qed.

Lemma ui_show_run {B} (w : widget) (k : unit -> UI B) (p : page) :
  ui_bind (show w) k p = k tt (Page (app p) (shown p ++ [w])).
Proof. reflexivity. Qed.

Lemma ui_lift_run {A B} (m : M A) (k : A -> UI B) (p : page) :
  ui_bind (lift m) k p
  = match m (app p) with
    | (Ok a, s') =>
      k a (Page s' (shown p ++ players (events_of m (app p))))
    | (Raise e, s') =>
      (Raise e, Page s' (shown p ++ players (events_of m (app p))))
    end.
Proof.
  unfold ui_bind, lift, events_of. by destruct (m (app p)) as [[a|e] s'].
Qed.

(** A helper that plays nothing leaves the page as it is. *)
Lemma ui_lift_quiet {A B} (m : M A) (k : A -> UI B) (p : page) :
  players (events_of m (app p)) = [] ->
  ui_bind (lift m) k p = match m (app p) with
                         | (Ok a, s') => k a (Page s' (shown p))
                         | (Raise e, s') => (Raise e, Page s' (shown p))
                         end.
Proof.
  intros H. rewrite ui_lift_run, H, app_nil_r. by destruct p.
Qed.

Lemma players_app evs1 evs2 :
  players (evs1 ++ evs2) = players evs1 ++ players evs2.
Proof. apply omap_app. Qed.

Lemma players_detect W text s :
  players (events_of (detect_lang_simple W text) s) = [].
Proof.
  rewrite detect_events_of. by destruct (existsb is_kana_or_cjk text).
Qed.

Lemma players_translate_text W text src dst s :
  players (events_of (translate_text W text src dst) s) = [].
Proof.
  destruct (resolve_src_run W text src s) as (src' & evs0 & Hrun & _).
  destruct (translate_text_trace W text src dst s _ _ Hrun)
    as (evs & Hevs & _ & Hexplicit & Hall).
  rewrite (events_of_app _ s _ Hall), players_app.
  assert (players evs = []) as ->.
  { destruct (decide (src = lit "auto")) as [->|Hne]; [|by rewrite Hexplicit].
    pose proof (grows_events _ s (grows_detect_lang_simple W text)) as G.
    rewrite resolve_src_auto in Hrun.
    destruct (detect_lang_simple W text s) as [[d|e] s1] eqn:E;
      [|discriminate Hrun].
    injection Hrun as _ Hs1. cbn [snd] in G.
    assert (trace s1 = trace s ++ evs0) as Htr by (by rewrite Hs1).
    cbn [trace] in Hevs. apply app_inv_head in Hevs. subst evs0.
    rewrite G in Htr. apply app_inv_head in Htr. rewrite <- Htr.
    apply players_detect. }
  by case_bool_decide.
Qed.

Lemma players_transcribe_bytes W wav_bytes lang_hint s :
  players (events_of (transcribe_bytes W wav_bytes lang_hint) s) = [].
Proof.
  destruct (w_tmp_fault W (trace s) wav_bytes) as [fault|] eqn:E.
  - rewrite (events_of_app _ s []); [reflexivity|].
    rewrite (transcribe_bytes_fault _ _ _ _ _ E), app_nil_r. by destruct fault.
  - erewrite events_of_app; [|rewrite transcribe_bytes_run by done; reflexivity].
    reflexivity.
Qed.

Lemma players_speak W text voice fmt s :
  players (events_of (speak W text voice fmt) s) = [].
Proof.
  rewrite speak_events. destruct (decide (strip text = [])); [done|].
  cbv zeta. destruct (w_speech W (trace s) _); [|done].
  by case_bool_decide.
Qed.

(** Drawing the player of lines 164-165, after [speak] returned [r]. *)
Lemma ui_playback_run (r : outcome (bytes * str)) (s2 : state) (l : list widget) :
  match r with
  | Ok (audio_bytes, mime) =>
    (if truthy audio_bytes then lift (st_audio audio_bytes mime) else ui_ret tt)
      (Page s2 l)
  | Raise e => (Raise e, Page s2 l)
  end
  = (fst (playback r s2), Page (snd (playback r s2)) (l ++ player r)).
Proof.
  destruct r as [[data mime]|e]; cbn [playback player fst snd].
  - destruct (truthy data).
    + unfold lift, st_audio. cbn [app shown]. rewrite trace_log.
      rewrite drop_app_length. reflexivity.
    + by rewrite app_nil_r.
  - by rewrite app_nil_r.
Qed.


Lemma playback_trace r s :
  exists plays,
    trace (snd (playback r s)) = trace s ++ plays
    /\ services plays = []
    /\ (forall req ans, EvSpeech req ans ∉ plays)
    /\ players plays = player r.
Proof.
  destruct r as [[data mime]|e]; cbn [playback player snd].
  - destruct (truthy data).
    + eexists [_]. split; [done|]. split; [done|]. split; [|done].
      intros req ans H. apply list_elem_of_singleton in H. discriminate H.
    + exists []. rewrite app_nil_r. split; [done|]. split; [done|].
      split; [|done]. intros req ans H. by apply elem_of_nil in H.
  - exists []. rewrite app_nil_r. split; [done|]. split; [done|].
    split; [|done]. intros req ans H. by apply elem_of_nil in H.
Qed.

(** Lines 158-165 as one step: the translation always returns; what it
    returned is shown, then handed to [speak], then played. *)
Lemma translate_and_speak_run W src_choice dst_choice tts_voice audio_format
      text_in p :
  exists out s1,
    translate_text W text_in src_choice dst_choice (app p) = (Ok out, s1)
    /\ exists before,
        translate_and_speak W src_choice dst_choice tts_voice audio_format
                            text_in p
        = (let '(r, s2) := speak W out tts_voice audio_format s1 in
           (fst (playback r s2),
            Page (snd (playback r s2))
                 (shown p ++ before ++ [StTextArea [] out 150] ++ player r))).
Proof.
  destruct (translate_text_returns W text_in src_choice dst_choice (app p))
    as [out Hout].
  destruct (translate_text W text_in src_choice dst_choice (app p))
    as [r1 s1] eqn:E. cbn [fst] in Hout. subst r1.
  exists out, s1. split; [done|]. eexists [_; _; _].
  unfold translate_and_speak.
  rewrite ui_show_run, ui_lift_quiet by apply players_translate_text.
  cbn [app shown]. rewrite E.
  rewrite !ui_show_run, ui_lift_quiet by apply players_speak. cbn [app shown].
  destruct (speak W out tts_voice audio_format s1) as [[[data mime]|e] s2].
  - etrans; [exact (ui_playback_run (Ok (data, mime)) s2 _)|].
    by rewrite <- !app_assoc.
  - etrans; [exact (ui_playback_run (Raise e) s2 _)|].
    by rewrite <- !app_assoc.
Qed.

Lemma not_in_local evs req ans :
  filter is_remote evs = [] -> EvSpeech req ans ∉ evs.
Proof.
  intros H Hin.
  assert (EvSpeech req ans ∈ filter is_remote evs) as Hf
      by (by apply list_elem_of_filter).
  rewrite H in Hf. by apply elem_of_nil in Hf.
Qed.

Lemma translate_text_never_synthesizes W text src dst s req ans :
  EvSpeech req ans ∉ events_of (translate_text W text src dst) s.
Proof.
  destruct (resolve_src_run W text src s) as (src' & evs0 & Hrun & _).
  destruct (translate_text_trace W text src dst s _ _ Hrun)
    as (evs & _ & Hlocal & _ & Hall).
  rewrite (events_of_app _ s _ Hall). intros Hin.
  apply elem_of_app in Hin as [Hin|Hin]; [by eapply not_in_local|].
  case_bool_decide; [by apply elem_of_nil in Hin|].
  apply list_elem_of_singleton in Hin. discriminate Hin.
Qed.

(** The events of lines 158-165: those of the translation, those of
    [speak] on its result, and the playback. *)
Lemma translate_and_speak_events W src_choice dst_choice tts_voice audio_format
      text_in p :
  exists out s1 plays,
    translate_text W text_in src_choice dst_choice (app p) = (Ok out, s1)
    /\ ui_events_of (translate_and_speak W src_choice dst_choice tts_voice
                                         audio_format text_in) p
       = events_of (translate_text W text_in src_choice dst_choice) (app p)
         ++ events_of (speak W out tts_voice audio_format) s1 ++ plays
    /\ services plays = []
    /\ (forall req ans, EvSpeech req ans ∉ plays)
    /\ exists before,
        shown (snd (translate_and_speak W src_choice dst_choice tts_voice
                                        audio_format text_in p))
        = shown p ++ before ++ [StTextArea [] out 150]
          ++ player (fst (speak W out tts_voice audio_format s1)).
Proof.
  destruct (translate_and_speak_run W src_choice dst_choice tts_voice
                                    audio_format text_in p)
    as (out & s1 & Htr & before & Hrun).
  pose proof (grows_events (translate_text W text_in src_choice dst_choice)
                           (app p) (grows_translate_text _ _ _ _)) as H1.
  rewrite Htr in H1. cbn [snd] in H1.
  pose proof (grows_events (speak W out tts_voice audio_format) s1
                           (grows_speak _ _ _ _)) as H2.
  destruct (speak W out tts_voice audio_format s1) as [r s2] eqn:E2.
  cbn [snd] in H2.
  destruct (playback_trace r s2) as (plays & H3 & Hplays & Hnone & _).
  exists out, s1, plays. split; [done|]. split; [|split; [done|split; [done|]]].
  - unfold ui_events_of. rewrite Hrun. cbn [snd app].
    rewrite H3, H2, H1, <- !app_assoc. apply drop_app_length.
  - exists before. by rewrite Hrun, E2.
Qed.

Lemma text_mode_active W src_choice dst_choice tts_voice audio_format typed p :
  let text_in := default (example dst_choice) typed in
  strip text_in <> [] ->
  exists p0,
    app p0 = app p
    /\ (exists top, shown p0 = shown p ++ top)
    /\ text_mode W src_choice dst_choice tts_voice audio_format typed true p
       = translate_and_speak W src_choice dst_choice tts_voice audio_format
                             text_in p0.
Proof.
  intros text_in Hsaid. eexists. split; [|split]; [| |unfold text_mode].
  3: { rewrite !ui_show_run. fold text_in.
       destruct (strip text_in); [done|]. reflexivity. }
  - reflexivity.
  - eexists [_; _; _]. cbn [shown]. by rewrite <- !app_assoc.
Qed.

(** X14. In text mode nothing happens to the program state (no call, no
    file, no history) unless the button was clicked on a text that is not
    blank.  A click on a blank text ends with the warning and returns
    normally. *)
Theorem X14_text_mode_idle
        (W : World) (src_choice dst_choice tts_voice audio_format : str)
        (typed : option str) (clicked : bool) (p : page) :
  let text_in := default (example dst_choice) typed in
  let run := text_mode W src_choice dst_choice tts_voice audio_format
                       typed clicked p in
  clicked = false \/ forallb is_space text_in = true ->
  fst run = Ok tt
  /\ app (snd run) = app p
  /\ (clicked = true ->
      last (shown (snd run))
      = Some (StWarning (lit "テキストを入力してください / Vui lòng nhập văn bản"))).
Proof.
  intros text_in run Hidle. subst run. unfold text_mode.
  rewrite !ui_show_run. fold text_in.
  destruct clicked.
  - destruct Hidle as [|Hblank]; [done|].
    apply strip_blank in Hblank. rewrite Hblank. cbn.
    split; [done|]. split; [done|]. intros _. by rewrite last_snoc.
  - cbn. by repeat split.
Qed.

Lemma X14_witness :
  forallb is_space (default (example (lit "ja")) (Some (lit "  "))) = true
  /\ app (snd (text_mode Sample.world_up (lit "auto") (lit "ja") (lit "alloy")
                         (lit "mp3") (Some (lit "  ")) true
                         (Page Sample.s0 [])))
     = Sample.s0.
Proof.
  split; [reflexivity|].
  exact (proj1 (proj2 (X14_text_mode_idle
                         Sample.world_up (lit "auto") (lit "ja") (lit "alloy")
                         (lit "mp3") (Some (lit "  ")) true (Page Sample.s0 [])
                         (or_intror eq_refl)))).
Defined.

Lemma speak_events_request W text voice fmt s req ans :
  EvSpeech req ans ∈ events_of (speak W text voice fmt) s ->
  req = TtsRequest TTS_MODEL voice text.
Proof.
  rewrite speak_events. destruct (decide (strip text = [])) as [|Hsaid].
  { intros H. by apply elem_of_nil in H. }
  cbv zeta. destruct (w_speech W (trace s) _) as [raw|e].
  - intros H. apply elem_of_cons in H as [H|H]; [by injection H|].
    case_bool_decide; [by apply elem_of_nil in H|].
    apply list_elem_of_singleton in H. discriminate H.
  - intros H. apply list_elem_of_singleton in H. by injection H.
Qed.

Lemma speak_events_call W text voice fmt s :
  strip text <> [] ->
  exists ans,
    EvSpeech (TtsRequest TTS_MODEL voice text) ans
    ∈ events_of (speak W text voice fmt) s.
Proof.
  intros Hsaid. rewrite speak_events.
  destruct (decide (strip text = [])); [done|]. cbv zeta.
  destruct (w_speech W (trace s) _) as [raw|e]; eexists; apply elem_of_cons; by left.
Qed.

Lemma ui_events_of_same_app {A} (m m' : UI A) (p p' : page) :
  app p' = app p -> m p = m' p' -> ui_events_of m p = ui_events_of m' p'.
Proof. intros Happ Hrun. unfold ui_events_of. by rewrite Hrun, Happ. Qed.

(** X15. In text mode the text handed to speech synthesis is the text
    shown as the result, whatever it is: the translation, the input
    itself when source and destination coincide, or the error string of
    a failed translation, which is read out like a translation.  The
    result area is the last thing drawn apart from the player, which
    follows it when the synthesis returned audio that is not empty. *)
Theorem X15_text_mode_speaks_what_it_shows
        (W : World) (src_choice dst_choice tts_voice audio_format : str)
        (typed : option str) (p : page) :
  let text_in := default (example dst_choice) typed in
  let run := text_mode W src_choice dst_choice tts_voice audio_format typed true in
  let translated := translate_text W text_in src_choice dst_choice (app p) in
  strip text_in <> [] ->
  exists out,
    fst translated = Ok out
    /\ (exists before,
           shown (snd (run p))
           = shown p ++ before ++ [StTextArea [] out 150]
             ++ player (fst (speak W out tts_voice audio_format (snd translated))))
    /\ (forall req ans,
           EvSpeech req ans ∈ ui_events_of run p ->
           req = TtsRequest TTS_MODEL tts_voice out)
    /\ (strip out <> [] ->
        exists ans,
          EvSpeech (TtsRequest TTS_MODEL tts_voice out) ans ∈ ui_events_of run p).
Proof.
  intros text_in run translated Hsaid. subst run translated.
  destruct (text_mode_active W src_choice dst_choice tts_voice audio_format
                             typed p Hsaid) as (p0 & Happ & Hshown & Hrun).
  fold text_in in Hrun.
  destruct (translate_and_speak_events W src_choice dst_choice tts_voice
                                       audio_format text_in p0)
    as (out & s1 & plays & Htr & Hev & _ & Hplays & before & Hlast).
  rewrite Happ in Htr, Hev.
  rewrite (ui_events_of_same_app _ _ p p0 Happ Hrun), Hrun, Hev.
  exists out. split; [by rewrite Htr|]. split; [|split].
  - rewrite Htr. cbn [snd]. destruct Hshown as [top Hshown].
    exists (top ++ before). by rewrite Hlast, Hshown, <- !app_assoc.
  - intros req ans Hin.
    apply elem_of_app in Hin as [Hin|Hin];
      [by apply translate_text_never_synthesizes in Hin|].
    apply elem_of_app in Hin as [Hin|Hin]; [|by apply Hplays in Hin].
    by eapply speak_events_request.
  - intros Hout.
    destruct (speak_events_call W out tts_voice audio_format s1 Hout) as [ans Hin].
    exists ans. apply elem_of_app. right. apply elem_of_app. by left.
Qed.

Lemma X15_witness :
  let said := lit "Translation error: Connection error." in
  strip (default (example (lit "ja")) (Some Sample.xin_chao)) <> []
  /\ fst (translate_text Scenario.world_mute Sample.xin_chao (lit "vi") (lit "ja")
                         Sample.s0) = Ok said
  /\ exists out,
      fst (translate_text Scenario.world_mute Sample.xin_chao (lit "vi")
                          (lit "ja") Sample.s0) = Ok out
      /\ (strip out <> [] ->
          exists ans,
            EvSpeech (TtsRequest TTS_MODEL (lit "alloy") out) ans
            ∈ ui_events_of (text_mode Scenario.world_mute (lit "vi") (lit "ja")
                                      (lit "alloy") (lit "mp3")
                                      (Some Sample.xin_chao) true)
                           (Page Sample.s0 [])).
Proof.
  intros said.
  assert (strip (default (example (lit "ja")) (Some Sample.xin_chao)) <> [])
    as Hsaid by (vm_compute; discriminate).
  split; [assumption|]. split; [reflexivity|].
  destruct (X15_text_mode_speaks_what_it_shows
              Scenario.world_mute (lit "vi") (lit "ja") (lit "alloy") (lit "mp3")
              (Some Sample.xin_chao) (Page Sample.s0 []) Hsaid)
    as (out & Hout & _ & _ & Hspoken).
  exists out. split; assumption.
Defined.

(** Text mode on the example text, with every service up: the page ends
    with the player of the spoken translation. *)
Example text_mode_ends_with_the_player :
  last (shown (snd (text_mode Sample.world_up (lit "auto") (lit "ja")
                              (lit "alloy") (lit "mp3") None true
                              (Page Sample.s0 []))))
  = Some (StAudio [Byte.x49; Byte.x44; Byte.x33] (lit "audio/mp3")).
Proof. vm_compute. reflexivity. Qed.

Lemma text_mode_idle W src_choice dst_choice tts_voice audio_format typed clicked p :
  clicked = false
  \/ strip (default (example dst_choice) typed) = [] ->
  app (snd (text_mode W src_choice dst_choice tts_voice audio_format
                      typed clicked p)) = app p.
Proof.
  intros Hidle. unfold text_mode. rewrite !ui_show_run.
  destruct clicked; [|done]. destruct Hidle as [H|H]; [done | by rewrite H].
Qed.

Lemma ui_events_of_idle {A} (m : UI A) p :
  app (snd (m p)) = app p -> ui_events_of m p = [].
Proof. intros H. unfold ui_events_of. rewrite H. apply drop_all. Qed.

Lemma sublist_of_two (a b : list service) (x y : service) :
  a = [] \/ a = [x] -> b = [] \/ b = [y] -> a ++ b `sublist_of` [x; y].
Proof. intros [->| ->] [->| ->]; simpl; repeat constructor. Qed.

Lemma services_translate_cases W text src dst s :
  services (events_of (translate_text W text src dst) s) = []
  \/ services (events_of (translate_text W text src dst) s) = [Translation].
Proof.
  rewrite services_translate_text.
  destruct (fst (resolve_src W text src s)); [case_bool_decide|]; auto.
Qed.

Lemma services_speak_cases W text voice fmt s :
  services (events_of (speak W text voice fmt) s) = []
  \/ services (events_of (speak W text voice fmt) s) = [Synthesis].
Proof. rewrite services_speak. destruct (decide (strip text = [])); auto. Qed.

(** X16. A run of text mode makes at most two remote calls: at most one
    translation, then at most one synthesis, never the other way round
    and never a transcription. *)
Theorem X16_text_mode_call_order
        (W : World) (src_choice dst_choice tts_voice audio_format : str)
        (typed : option str) (clicked : bool) (p : page) :
  services (ui_events_of (text_mode W src_choice dst_choice tts_voice
                                    audio_format typed clicked) p)
  `sublist_of` [Translation; Synthesis].
Proof.
  destruct (decide (clicked = false
                    \/ strip (default (example dst_choice) typed) = []))
    as [Hidle|Hactive].
  { rewrite ui_events_of_idle by by apply text_mode_idle.
    repeat constructor. }
  assert (clicked = true) as -> by (destruct clicked; tauto).
  assert (strip (default (example dst_choice) typed) <> []) as Hsaid by tauto.
  destruct (text_mode_active W src_choice dst_choice tts_voice audio_format
                             typed p Hsaid) as (p0 & Happ & _ & Hrun).
  destruct (translate_and_speak_events
              W src_choice dst_choice tts_voice audio_format
              (default (example dst_choice) typed) p0)
    as (out & s1 & plays & _ & Hev & Hplays & _ & _).
  rewrite (ui_events_of_same_app _ _ p p0 Happ Hrun), Hev.
  rewrite !services_app, Hplays, app_nil_r.
  apply sublist_of_two;
    [apply services_translate_cases | apply services_speak_cases].
Qed.














(** Voice input with a full disk: the run stops on line 85 with the
    error of the write, before any service is called. *)
Example voice_input_on_a_full_disk :
  let run := voice_input_mode Scenario.world_full_disk (lit "auto") (lit "ja")
                              (lit "alloy") (lit "mp3") (Some Sample.recording) in
  fst (run (Page Sample.s0 []))
  = Raise (Exn OSError (lit "[Errno 28] No space left on device"))
  /\ ui_events_of run (Page Sample.s0 []) = [].
Proof. split; vm_compute; reflexivity. Qed.

(** *** Conversation mode, beyond the claims *)

Lemma playback_run W text tts_voice audio_format s :
  (res <- speak W text tts_voice audio_format ;;
   let '(audio_bytes, mime) := res in
   if truthy audio_bytes then st_audio audio_bytes mime else ret tt) s
  = (let '(r, s2) := speak W text tts_voice audio_format s in playback r s2).
Proof.
  rewrite bind_run.
  destruct (speak W text tts_voice audio_format s) as [[[data mime]|e] s2];
    cbn [playback]; [|done].
  by destruct (truthy data).
Qed.

Lemma translate_other_language W text detected s :
  detected = lit "ja" \/ detected = lit "vi" ->
  let target := if bool_decide (detected = lit "vi") then lit "ja" else lit "vi" in
  let req := translation_request text detected target in
  translate_text W text detected target s
  = (Ok (translation_result (w_chat W (trace s) req)),
     log (EvChat req (w_chat W (trace s) req)) s).
Proof.
  intros Hpair target req.
  assert (detected <> lit "auto") as Hauto.
  { apply auto_is_no_language, pair_of_languages'. tauto. }
  assert (detected <> target) as Hne.
  { subst target. pose proof ja_is_not_vi.
    destruct Hpair as [->| ->]; case_bool_decide; congruence. }
  rewrite translate_text_run, resolve_src_explicit by done.
  by rewrite bool_decide_eq_false_2.
Qed.

(** A recorded turn in full: what is stored, and what was called. *)
Lemma voice_turn_record W tts_voice audio_format wav_bytes s c heard s1 :
  session_chat s = Some c ->
  transcribe_bytes W wav_bytes (lit "auto") s = (Ok heard, s1) ->
  exists detected s2 tail,
    detect_lang_simple W heard s1 = (Ok detected, s2)
    /\ (detected = lit "ja" \/ detected = lit "vi")
    /\ let target :=
         if bool_decide (detected = lit "vi") then lit "ja" else lit "vi" in
       let req := translation_request heard detected target in
       let answer := w_chat W (trace s2) req in
       session_chat (snd (voice_turn W tts_voice audio_format wav_bytes s))
       = Some (c ++ [Turn (speaker_label (length c)) heard
                          (translation_result answer) detected target])
       /\ events_of (voice_turn W tts_voice audio_format wav_bytes) s
          = events_of (transcribe_bytes W wav_bytes (lit "auto")) s
            ++ events_of (detect_lang_simple W heard) s1
            ++ [EvChat req answer] ++ tail
       /\ (services tail = [] \/ services tail = [Synthesis])
       /\ exists s3,
           let spoken :=
             fst (speak W (translation_result answer) tts_voice audio_format s3) in
           players (events_of (voice_turn W tts_voice audio_format wav_bytes) s)
           = player spoken
           /\ (forall e,
                  fst (voice_turn W tts_voice audio_format wav_bytes s) = Raise e ->
                  spoken = Raise e).
Proof.
  intros Hc Hheard.
  pose proof (keeps_chat_transcribe_bytes W wav_bytes (lit "auto") s) as K1.
  pose proof (grows_events _ s (grows_transcribe_bytes W wav_bytes (lit "auto")))
    as G1.
  rewrite Hheard in K1, G1. cbn [snd] in K1, G1. rewrite Hc in K1.
  destruct (detect_in_languages W heard s1) as (detected & Hd & Hpair).
  pose proof (keeps_chat_detect_lang_simple W heard s1) as K2.
  pose proof (grows_events _ s1 (grows_detect_lang_simple W heard)) as G2.
  destruct (detect_lang_simple W heard s1) as [r2 s2] eqn:E2.
  cbn [fst snd] in *. subst r2. rewrite K1 in K2.
  set (target := if bool_decide (detected = lit "vi") then lit "ja" else lit "vi").
  set (req := translation_request heard detected target).
  set (answer := w_chat W (trace s2) req).
  set (t := Turn (speaker_label (length c)) heard (translation_result answer)
                 detected target).
  set (s3 := set_chat (Some (c ++ [t])) (log (EvChat req answer) s2)).
  pose proof (grows_events _ s3 (grows_speak W (translation_result answer)
                                             tts_voice audio_format)) as G3.
  pose proof (keeps_chat_speak W (translation_result answer) tts_voice
                               audio_format s3) as K3.
  assert (voice_turn W tts_voice audio_format wav_bytes s
          = (let '(r, s4) := speak W (translation_result answer) tts_voice
                                   audio_format s3 in playback r s4)) as Hrun.
  { unfold voice_turn. rewrite bind_run, Hheard, bind_run, E2, bind_run.
    rewrite (translate_other_language W heard detected s2 Hpair).
    cbv zeta. fold target req answer.
    rewrite bind_run. unfold get_chat at 1. cbn [session_chat log]. rewrite K2.
    rewrite bind_run. unfold chat_append at 1. rewrite bind_run.
    unfold get_chat at 1. cbn [session_chat log]. rewrite K2.
    apply playback_run. }
  destruct (speak W (translation_result answer) tts_voice audio_format s3)
    as [r s4] eqn:E4. cbn [snd] in G3, K3.
  destruct (playback_trace r s4) as (plays & Hp & Hplays & _ & Hplayer).
  exists detected, s2, (events_of (speak W (translation_result answer) tts_voice
                                         audio_format) s3 ++ plays).
  assert (events_of (voice_turn W tts_voice audio_format wav_bytes) s
          = events_of (transcribe_bytes W wav_bytes (lit "auto")) s
            ++ events_of (detect_lang_simple W heard) s1
            ++ [EvChat req answer]
            ++ events_of (speak W (translation_result answer) tts_voice
                                audio_format) s3 ++ plays) as Hev.
  { assert (trace s3
            = trace s ++ events_of (transcribe_bytes W wav_bytes (lit "auto")) s
              ++ events_of (detect_lang_simple W heard) s1
              ++ [EvChat req answer]) as G3'.
    { change (trace s3) with (trace s2 ++ [EvChat req answer]).
      clearbody answer. rewrite G2, G1, <- !app_assoc. reflexivity. }
    apply events_of_app. rewrite Hrun, Hp, G3, G3', <- !app_assoc. reflexivity. }
  split; [done|]. split; [done|]. cbv zeta. split; [|split; [|split]].
  - rewrite Hrun.
    assert (session_chat (snd (playback r s4)) = session_chat s4) as ->
        by (destruct r as [[d m]|e]; cbn [playback snd];
            [destruct (truthy d)|]; done).
    by rewrite K3.
  - exact Hev.
  - rewrite services_app, Hplays, app_nil_r.
    apply services_speak_cases.
  - assert (fst (speak W (translation_result answer) tts_voice audio_format s3)
            = r) as Hr by (by rewrite E4).
    exists s3. cbv zeta. fold target req answer. rewrite Hr. split.
    + rewrite Hev, !players_app, players_transcribe_bytes, players_detect.
      by rewrite players_speak, Hplayer.
    + intros e. rewrite Hrun.
      destruct r as [[d m]|e']; cbn [playback fst]; congruence.
Qed.

Lemma transcript_stripped W wav_bytes lang_hint s heard :
  fst (transcribe_bytes W wav_bytes lang_hint s) = Ok heard -> is_stripped heard.
Proof.
  intros Hheard.
  pose proof (transcribe_bytes_ok_written _ _ _ _ _ Hheard) as Hfault.
  revert Hheard. rewrite transcribe_bytes_run by done. cbv zeta. cbn [fst].
  destruct (w_transcribe W _ _) as [stt|e]; [|done].
  intros [= <-]. apply strip_is_stripped.
Qed.

Lemma init_chat_run s :
  exists s1,
    init_chat s = (Ok tt, s1)
    /\ session_chat s1 = Some (chat_of s)
    /\ trace s1 = trace s.
Proof. unfold init_chat, chat_of. destruct (session_chat s) eqn:E; eauto. Qed.

Lemma events_of_same_trace {A} (m m' : M A) (s s' : state) :
  trace s' = trace s -> m s = m' s' -> events_of m s = events_of m' s'.
Proof. intros Htr Hrun. unfold events_of. by rewrite Hrun, Htr. Qed.

(** A run of the handler that records a turn. *)
Lemma conversation_mode_turn W tts_voice audio_format wav_bytes s :
  records_turn W wav_bytes s = true ->
  exists t rest,
    chat_of (snd (conversation_mode W tts_voice audio_format wav_bytes s))
    = chat_of s ++ [t]
    /\ crosses_languages t
    /\ is_stripped (transcript t)
    /\ services (events_of (conversation_mode W tts_voice audio_format wav_bytes) s)
       = Transcription :: Translation :: rest
    /\ (rest = [] \/ rest = [Synthesis]).
Proof.
  intros Hrec. destruct wav_bytes as [wav|]; [|done]. cbn [records_turn] in Hrec.
  apply andb_prop in Hrec as [Hwav Hheard].
  destruct (init_chat_run s) as (s1 & Hinit & Hc & Htr).
  assert (conversation_mode W tts_voice audio_format (Some wav) s
          = voice_turn W tts_voice audio_format wav s1) as Hrun.
  { unfold conversation_mode. rewrite bind_run, Hinit. by rewrite Hwav. }
  rewrite (transcribe_bytes_outcome W wav (lit "auto") s s1) in Hheard by done.
  destruct (transcribe_bytes W wav (lit "auto") s1) as [[heard|e] s1'] eqn:E;
    [|done].
  destruct (voice_turn_record W tts_voice audio_format wav s1 _ heard s1' Hc E)
    as (detected & s2 & tail & _ & Hpair & Hturn). cbv zeta in Hturn.
  destruct Hturn as (Hchat & Hev & Htail & _).
  eexists _, (services tail). rewrite Hrun.
  rewrite (events_of_same_trace _ (voice_turn W tts_voice audio_format wav) s s1)
    by done.
  split; [|split; [|split; [|split]]].
  - unfold chat_of at 1. rewrite Hchat. reflexivity.
  - unfold crosses_languages. cbn [turn_src turn_dst].
    pose proof ja_is_not_vi.
    destruct Hpair as [->| ->]; case_bool_decide; try congruence; auto.
  - cbn [transcript]. eapply (transcript_stripped _ _ _ s1). by rewrite E.
  - rewrite Hev, !services_app, services_transcribe_bytes, services_detect.
    rewrite (transcribe_bytes_ok_written W wav (lit "auto") s1 heard)
      by (by rewrite E).
    reflexivity.
  - done.
Qed.

(** A run of the handler that records nothing. *)
Lemma conversation_mode_no_turn W tts_voice audio_format wav_bytes s :
  records_turn W wav_bytes s = false ->
  services (events_of (conversation_mode W tts_voice audio_format wav_bytes) s) = []
  \/ services (events_of (conversation_mode W tts_voice audio_format wav_bytes) s)
     = [Transcription].
Proof.
  intros Hrec.
  destruct (init_chat_run s) as (s1 & Hinit & Hc & Htr).
  assert (forall r, conversation_mode W tts_voice audio_format wav_bytes s = (r, s1) ->
                    services (events_of (conversation_mode W tts_voice audio_format
                                                           wav_bytes) s) = [])
    as Hidle.
  { intros r Hrun. unfold events_of. rewrite Hrun. cbn [snd].
    by rewrite Htr, drop_all. }
  destruct wav_bytes as [wav|].
  2: { left. eapply Hidle. unfold conversation_mode. by rewrite bind_run, Hinit. }
  cbn [records_turn] in Hrec. destruct (truthy wav) eqn:Hwav.
  2: { left. eapply Hidle. unfold conversation_mode.
       by rewrite bind_run, Hinit, Hwav. }
  cbn [andb] in Hrec.
  rewrite (transcribe_bytes_outcome W wav (lit "auto") s s1) in Hrec by done.
  assert (conversation_mode W tts_voice audio_format (Some wav) s
          = voice_turn W tts_voice audio_format wav s1) as Hrun.
  { unfold conversation_mode. rewrite bind_run, Hinit. by rewrite Hwav. }
  rewrite (events_of_same_trace _ (voice_turn W tts_voice audio_format wav) s s1)
    by done.
  pose proof (grows_events _ s1 (grows_transcribe_bytes W wav (lit "auto"))) as G.
  destruct (transcribe_bytes W wav (lit "auto") s1) as [[heard|e] s1'] eqn:E;
    [done|]. cbn [snd] in G.
  assert (events_of (voice_turn W tts_voice audio_format wav) s1
          = events_of (transcribe_bytes W wav (lit "auto")) s1) as ->.
  { apply events_of_app. unfold voice_turn. by rewrite bind_run, E. }
  rewrite services_transcribe_bytes.
  destruct (w_tmp_fault W (trace s1) wav); auto.
Qed.

(** The player of a run of the handler: that of the spoken translation
    of the turn it recorded, none when it recorded nothing or raised. *)
Lemma conversation_mode_players W tts_voice audio_format wav_bytes s :
  let handled := conversation_mode W tts_voice audio_format wav_bytes s in
  let audio :=
    players (events_of (conversation_mode W tts_voice audio_format wav_bytes) s) in
  (forall e, fst handled = Raise e -> audio = [])
  /\ if records_turn W wav_bytes s
     then exists t s3,
         chat_of (snd handled) = chat_of s ++ [t]
         /\ audio
            = player (fst (speak W (translation t) tts_voice audio_format s3))
     else audio = [].
Proof.
  cbv zeta.
  destruct (init_chat_run s) as (s1 & Hinit & Hc & Htr).
  assert (forall r, conversation_mode W tts_voice audio_format wav_bytes s = (r, s1) ->
                    players (events_of (conversation_mode W tts_voice audio_format
                                                          wav_bytes) s) = [])
    as Hidle.
  { intros r Hrun. unfold events_of. rewrite Hrun. cbn [snd].
    by rewrite Htr, drop_all. }
  destruct wav_bytes as [wav|].
  2: { cbn [records_turn].
       assert (conversation_mode W tts_voice audio_format None s = (Ok tt, s1))
         as Hrun by (unfold conversation_mode; by rewrite bind_run, Hinit).
       split; [intros _ _|]; by eapply Hidle. }
  cbn [records_turn]. destruct (truthy wav) eqn:Hwav.
  2: { cbn [andb].
       assert (conversation_mode W tts_voice audio_format (Some wav) s
               = (Ok tt, s1)) as Hrun
           by (unfold conversation_mode; by rewrite bind_run, Hinit, Hwav).
       split; [intros _ _|]; by eapply Hidle. }
  cbn [andb].
  rewrite (transcribe_bytes_outcome W wav (lit "auto") s s1) by done.
  assert (conversation_mode W tts_voice audio_format (Some wav) s
          = voice_turn W tts_voice audio_format wav s1) as Hrun.
  { unfold conversation_mode. rewrite bind_run, Hinit. by rewrite Hwav. }
  rewrite (events_of_same_trace _ (voice_turn W tts_voice audio_format wav) s s1)
    by done.
  rewrite Hrun.
  pose proof (grows_events _ s1 (grows_transcribe_bytes W wav (lit "auto"))) as G.
  destruct (transcribe_bytes W wav (lit "auto") s1) as [[heard|e] s1'] eqn:E.
  - destruct (voice_turn_record W tts_voice audio_format wav s1 _ heard s1' Hc E)
      as (detected & s2 & tail & _ & _ & Hturn). cbv zeta in Hturn.
    destruct Hturn as (Hchat & _ & _ & s3 & Hplayer & Hraise).
    split.
    + intros e He. rewrite Hplayer, (Hraise e He). reflexivity.
    + eexists _, s3. split; [unfold chat_of at 1; by rewrite Hchat|].
      exact Hplayer.
  - cbn [snd] in G.
    assert (events_of (voice_turn W tts_voice audio_format wav) s1
            = events_of (transcribe_bytes W wav (lit "auto")) s1) as ->.
    { apply events_of_app. unfold voice_turn. by rewrite bind_run, E. }
    split; [intros _ _|]; apply players_transcribe_bytes.
Qed.

(** X19. In every history grown from the empty one, each turn was
    translated from one of the two languages to the other (never from a
    language to itself), and its transcript has no white space at either
    end. *)
Theorem X19_history_turns_cross_languages
        (W : World) (runs : list (str * str * option bytes)) (s : state) :
  chat_of s = [] ->
  Forall (fun t => crosses_languages t /\ is_stripped (transcript t))
         (chat_of (run_session W runs s)).
Proof.
  intros Hempty.
  assert (Forall (fun t => crosses_languages t /\ is_stripped (transcript t))
                 (chat_of s)) as Hinv by (rewrite Hempty; constructor).
  clear Hempty. revert s Hinv.
  induction runs as [|[[tts_voice audio_format] wav_bytes] rest IH];
    intros s Hinv; [done|].
  cbn [run_session]. apply IH.
  pose proof (conversation_mode_chat W tts_voice audio_format wav_bytes s) as Hstep.
  cbv zeta in Hstep.
  destruct (records_turn W wav_bytes s) eqn:Hrec; [|by rewrite Hstep].
  destruct (conversation_mode_turn W tts_voice audio_format wav_bytes s Hrec)
    as (t & _ & -> & Hcross & Hstripped & _).
  apply Forall_app. split; [done|]. by constructor.
Qed.

Lemma X19_witness :
  chat_of Sample.s0 = []
  /\ Forall (fun t => crosses_languages t /\ is_stripped (transcript t))
           (chat_of (run_session Sample.world_up
                                 [(lit "alloy", lit "mp3", Some Sample.recording);
                                  (lit "alloy", lit "mp3", None);
                                  (lit "sage", lit "wav", Some Sample.recording)]
                                 Sample.s0)).
Proof.
  split; [reflexivity|].
  exact (X19_history_turns_cross_languages Sample.world_up _ Sample.s0 eq_refl).
Defined.

(** X20. A run of the conversation handler that records a turn has made
    the transcription call, then exactly one translation call (the
    same-language shortcut of [translate_text] is never taken there),
    then at most one synthesis call.  A run that records nothing has made
    no remote call, or the one transcription call that failed. *)
Theorem X20_conversation_turn_calls
        (W : World) (tts_voice audio_format : str) (wav_bytes : option bytes)
        (s : state) :
  let called :=
    services (events_of (conversation_mode W tts_voice audio_format wav_bytes) s) in
  if records_turn W wav_bytes s
  then called = [Transcription; Translation]
       \/ called = [Transcription; Translation; Synthesis]
  else called = [] \/ called = [Transcription].
Proof.
  intros called. subst called.
  destruct (records_turn W wav_bytes s) eqn:Hrec.
  - destruct (conversation_mode_turn W tts_voice audio_format wav_bytes s Hrec)
      as (t & rest & _ & _ & _ & -> & [->| ->]); auto.
  - by apply conversation_mode_no_turn.
Qed.

(** X21. The history only grows, and by at most one turn per run: what
    was recorded stays as it is, in place, through any sequence of runs,
    including runs that raise. *)
Theorem X21_history_is_append_only
        (W : World) (runs : list (str * str * option bytes)) (s : state) :
  chat_of s `prefix_of` chat_of (run_session W runs s)
  /\ (length (chat_of (run_session W runs s))
      <= length (chat_of s) + length runs)%nat.
Proof.
  revert s. induction runs as [|[[tts_voice audio_format] wav_bytes] rest IH];
    intros s.
  { cbn [run_session length]. split; [done | lia]. }
  cbn [run_session length].
  destruct (IH (snd (conversation_mode W tts_voice audio_format wav_bytes s)))
    as [Hpre Hlen].
  pose proof (conversation_mode_chat W tts_voice audio_format wav_bytes s) as Hstep.
  cbv zeta in Hstep.
  destruct (records_turn W wav_bytes s).
  - destruct Hstep as (t & Hstep & _). rewrite Hstep in Hpre, Hlen.
    split.
    + etrans; [|exact Hpre]. by apply prefix_app_r.
    + rewrite length_app in Hlen. simpl in Hlen. lia.
  - rewrite Hstep in Hpre, Hlen. split; [done | lia].
Qed.

(** *** The conversation page *)

Example str_of_nat_12 : str_of_nat 12 = lit "12".
Proof. reflexivity. Qed.









(** A first turn on the conversation page, with every service up: the
    player of the spoken translation comes before the history. *)
Example conversation_page_first_turn :
  shown (snd (conversation_page Sample.world_up (lit "alloy") (lit "mp3")
                                (Some Sample.recording) (Page Sample.s0 [])))
  = [StSubheader (lit "🗣️ 会話モード / Hội thoại");
     StCaption (lit "交互に話してください / Nói lần lượt");
     AudioRecorder (lit "話す / Nói") (lit "#1e88e5") (lit "#6c757d") (lit "2x");
     StAudio [Byte.x49; Byte.x44; Byte.x33] (lit "audio/mp3")]
    ++ turn_block 1 (Turn (lit "A") (lit "xin chao") (lit "こんにちは")
                          (lit "vi") (lit "ja")).
Proof. vm_compute. reflexivity. Qed.

(** X23. When speech synthesis fails in conversation mode, the turn has
    already been recorded: the run raises, the page shows no history,
    and the history is one turn longer for the next run. *)
Theorem X23_failed_synthesis_still_records
        (W : World) (tts_voice audio_format : str) (wav_bytes : option bytes)
        (p : page) (e : exn) :
  let drawn := conversation_page W tts_voice audio_format wav_bytes p in
  records_turn W wav_bytes (app p) = true ->
  fst (conversation_mode W tts_voice audio_format wav_bytes (app p)) = Raise e ->
  fst drawn = Raise e
  /\ (forall body, StMarkdown body ∉ shown p ->
                   StMarkdown body ∉ shown (snd drawn))
  /\ exists t, chat_of (app (snd drawn)) = chat_of (app p) ++ [t]
               /\ speaker t = speaker_label (length (chat_of (app p))).
Proof.
  intros drawn Hrec Hraise. subst drawn.
  pose proof (conversation_mode_chat W tts_voice audio_format wav_bytes (app p))
    as Hstep. cbv zeta in Hstep. rewrite Hrec in Hstep.
  pose proof (conversation_mode_players W tts_voice audio_format wav_bytes
                                        (app p)) as [Hquiet _].
  cbv zeta in Hquiet.
  unfold conversation_page. rewrite !ui_show_run, ui_lift_run. cbn [app shown].
  rewrite (Hquiet e Hraise), app_nil_r.
  destruct (conversation_mode W tts_voice audio_format wav_bytes (app p))
    as [r s'] eqn:E. cbn [fst snd] in *. subst r. cbn [fst snd app shown].
  split; [done|]. split; [|done].
  intros body Hbody Hin.
  repeat (apply elem_of_app in Hin as [Hin|Hin];
          [|apply list_elem_of_singleton in Hin; discriminate Hin]).
  done.
Qed.

Lemma X23_witness :
  let drawn := conversation_page Scenario.world_hoarse (lit "alloy") (lit "mp3")
                                 (Some Sample.recording) (Page Sample.s0 []) in
  records_turn Scenario.world_hoarse (Some Sample.recording) Sample.s0 = true
  /\ fst drawn = Raise Sample.connection_error
  /\ exists t, chat_of (app (snd drawn)) = chat_of Sample.s0 ++ [t]
               /\ speaker t = speaker_label (length (chat_of Sample.s0)).
Proof.
  intros drawn.
  assert (records_turn Scenario.world_hoarse (Some Sample.recording) Sample.s0
          = true) as Hrec by (vm_compute; reflexivity).
  assert (fst (conversation_mode Scenario.world_hoarse (lit "alloy") (lit "mp3")
                                 (Some Sample.recording) Sample.s0)
          = Raise Sample.connection_error) as Hraise by (vm_compute; reflexivity).
  pose proof (X23_failed_synthesis_still_records
                Scenario.world_hoarse (lit "alloy") (lit "mp3")
                (Some Sample.recording) (Page Sample.s0 [])
                Sample.connection_error Hrec Hraise) as (H1 & _ & H3).
  split; [assumption|]. split; assumption.
Defined.

(** *** The credential check *)

Lemma blank_is_not_truthy (s : str) :
  negb (truthy (strip s)) = forallb is_space s.
Proof.
  destruct (forallb is_space s) eqn:E.
  - apply strip_blank in E. by rewrite E.
  - destruct (strip s) eqn:Hs; [|done].
    apply strip_blank in Hs. congruence.
Qed.

(** X24. The start-up check warns exactly when the credential is absent
    from the environment or its value is blank; it never raises (the
    lookup of a missing key is not reached) and does nothing else. *)
Theorem X24_api_key_warning (environ : gmap str str) (p : page) :
  let warning :=
    StWarning (lit "OPENAI_API_KEY が設定されていません。 .env に追加してください。") in
  fst (check_api_key environ p) = Ok tt
  /\ app (snd (check_api_key environ p)) = app p
  /\ shown (snd (check_api_key environ p))
     = shown p ++ match environ !! OPENAI_API_KEY with
                  | Some value => if forallb is_space value then [warning] else []
                  | None => [warning]
                  end.
Proof.
  intros warning. unfold check_api_key, api_key_unset.
  destruct (environ !! OPENAI_API_KEY) as [value|] eqn:E.
  - rewrite bool_decide_eq_true_2 by eauto. cbn [negb].
    rewrite !ui_bind_run. unfold environ_getitem. rewrite E. unfold ui_ret.
    rewrite blank_is_not_truthy.
    destruct (forallb is_space value); cbn; [done|].
    rewrite app_nil_r. by destruct p.
  - rewrite bool_decide_eq_false_2 by (intros [? [=]]). cbn. done.
Qed.

Example api_key_blank_warns :
  shown (snd (check_api_key {[ OPENAI_API_KEY := lit "   " ]} (Page Sample.s0 [])))
  = [StWarning (lit "OPENAI_API_KEY が設定されていません。 .env に追加してください。")].
Proof. reflexivity. Qed.

Example api_key_set_is_quiet :
  shown (snd (check_api_key {[ OPENAI_API_KEY := lit "sk-test" ]}
                            (Page Sample.s0 []))) = [].
Proof. reflexivity. Qed.
